(** * Aggregation engine of the ocean-profile dashboard

    A shallow embedding of the chart aggregations of
    [frontend/web/src/components/DataVisualization.tsx] (depth distribution,
    temperature and salinity histograms, monthly series with a centred moving
    average) and of the bounds-keyed fetch of the map component
    ([fetchProfiles], with its [cacheRef] map), followed by the properties the
    specification states about them. *)

From Stdlib Require Import ZArith QArith Qround Qabs Lia Lqa Ascii.
From Stdlib Require Import Sorting.Permutation Sorting.Sorted Structures.OrdersEx.
From stdpp Require Import base list strings gmap pretty.

(** ** The JavaScript fragment the components use *)

Module JS.

(** A JavaScript number is modelled by its exact value: a rational, or NaN.
    Arithmetic is exact (the rounding of IEEE doubles is abstracted), there is
    no negative zero, and infinities are left out: the modelled code reaches a
    division only with a divisor that is at least 0.1 or a positive count. *)
Inductive number : Type :=
  | finite (q : Q)
  | NaN.

(** What a record field can hold once the JSON response is parsed: a number,
    [null], or nothing at all (reading it gives [undefined]). *)
Inductive value : Type :=
  | VNum (x : number)
  | VNull
  | VUndefined.

Global Instance Q_eq_dec : EqDecision Q.
Proof. solve_decision. Defined.

Global Instance number_eq_dec : EqDecision number.
Proof. solve_decision. Defined.

Global Instance value_eq_dec : EqDecision value.
Proof. solve_decision. Defined.

(** [ToNumber]: the coercion applied by [/], [+=] and [-]. *)
Definition ToNumber (v : value) : number :=
  match v with
  | VNum x => x
  | VNull => finite 0
  | VUndefined => NaN
  end.

Definition add (x y : number) : number :=
  match x, y with
  | finite a, finite b => finite (a + b)
  | _, _ => NaN
  end.

Definition sub (x y : number) : number :=
  match x, y with
  | finite a, finite b => finite (a - b)
  | _, _ => NaN
  end.

Definition mul (x y : number) : number :=
  match x, y with
  | finite a, finite b => finite (a * b)
  | _, _ => NaN
  end.

(** [0 / 0] is NaN; a non-zero number over zero would be an infinity, which
    the model does not have (no modelled division has a zero divisor). *)
Definition div (x y : number) : number :=
  match x, y with
  | finite a, finite b => if Qeq_bool b 0 then NaN else finite (a / b)
  | _, _ => NaN
  end.

Definition Math_floor (x : number) : number :=
  match x with
  | finite a => finite (inject_Z (Qfloor a))
  | NaN => NaN
  end.

Definition Math_max (x y : number) : number :=
  match x, y with
  | finite a, finite b => if Qle_bool a b then finite b else finite a
  | _, _ => NaN
  end.

Definition Math_min (x y : number) : number :=
  match x, y with
  | finite a, finite b => if Qle_bool a b then finite a else finite b
  | _, _ => NaN
  end.

Definition of_nat (n : nat) : number := finite (inject_Z (Z.of_nat n)).

(** [x < 0] on numbers; false on NaN. *)
Definition negative (x : number) : bool :=
  match x with
  | finite d => negb (Qle_bool 0 d)
  | NaN => false
  end.

(** The property key a number turns into. [String(x)] is the same string for
    two numbers exactly when they have the same value, and [Number] reads the
    value back, so the key is modelled by the number in lowest terms. *)
Definition String_number (x : number) : number :=
  match x with
  | finite q => finite (Qred q)
  | NaN => NaN
  end.

(** An object used as a dictionary: its own properties in creation order. *)
Definition object (K V : Type) : Type := list (K * V).

(** [o[k]]: [None] stands for [undefined]. *)
Fixpoint get {K V} `{EqDecision K} (o : object K V) (k : K) : option V :=
  match o with
  | [] => None
  | (k', v) :: o' => if decide (k' = k) then Some v else get o' k
  end.

(** [o[k] = v]: an existing property keeps its place. *)
Fixpoint set {K V} `{EqDecision K} (o : object K V) (k : K) (v : V) : object K V :=
  match o with
  | [] => [(k, v)]
  | (k', v') :: o' => if decide (k' = k) then (k', v) :: o' else (k', v') :: set o' k v
  end.

(** [Array.prototype.sort(cmp)]: stable; an element moves in front of another
    only if the comparator puts it strictly before (a NaN from the comparator
    counts as zero). Modelled as a stable insertion sort. *)
Section Array_sort.
Context {A : Type} (cmp : A -> A -> number).

Fixpoint insert (x : A) (l : list A) : list A :=
  match l with
  | [] => [x]
  | y :: l' => if negative (cmp y x) then y :: insert x l' else x :: y :: l'
  end.

Definition sort (l : list A) : list A := foldr insert [] l.
End Array_sort.

(** [Object.entries] lists the properties whose key is an array index (an
    integer from 0 to 2^32 - 2) first, in ascending order, then the others in
    creation order. *)
Definition array_index (x : number) : option Z :=
  match String_number x with
  | finite (Qmake n 1) => if bool_decide (0 <= n <= 4294967294)%Z then Some n else None
  | _ => None
  end.

Definition is_index (x : number) : bool :=
  match array_index x with Some _ => true | None => false end.

Definition index_of (x : number) : Z := default 0%Z (array_index x).

Definition entries_number {V} (o : object number V) : list (number * V) :=
  sort (fun a b => finite (inject_Z (index_of (fst a) - index_of (fst b))))
       (filter (fun kv => is_index (fst kv)) o)
  ++ filter (fun kv => ~ is_index (fst kv)) o.

(** [Array.prototype.slice(start, end)]. *)
Definition slice {A} (l : list A) (start stop : Z) : list A :=
  let len := Z.of_nat (length l) in
  let k := if (start <? 0)%Z then Z.max (len + start) 0 else Z.min start len in
  let fin := if (stop <? 0)%Z then Z.max (len + stop) 0 else Z.min stop len in
  take (Z.to_nat (fin - k)) (drop (Z.to_nat k) l).

(** [Array.prototype.map] with the index as second argument. *)
Definition mapi {A B} (f : A -> Z -> B) (l : list A) : list B :=
  imap (fun i a => f a (Z.of_nat i)) l.

(** [s.padStart(2, '0')]. *)
Definition padStart2 (s : string) : string :=
  match String.length s with
  | 0 => "00"
  | 1 => "0" +:+ s
  | _ => s
  end.

(** [a.localeCompare(b)] on keys made of digits and hyphens: the comparison
    of the strings character by character. *)
Definition localeCompare (a b : string) : number :=
  match String_as_OT.compare a b with
  | Lt => finite (-1)
  | Eq => finite 0
  | Gt => finite 1
  end.

(** [Math.round]: the nearest integer, a half going up. *)
Definition Math_round (x : number) : number :=
  match x with
  | finite q => finite (inject_Z (Qfloor (q + (1 # 2))))
  | NaN => NaN
  end.

(** [x === y], [x >= y] and [x <= y] on numbers: false as soon as one side
    is NaN. *)
Definition strictEq (x y : number) : bool :=
  match x, y with
  | finite a, finite b => Qeq_bool a b
  | _, _ => false
  end.

Definition geq (x y : number) : bool :=
  match x, y with
  | finite a, finite b => Qle_bool b a
  | _, _ => false
  end.

Definition leq (x y : number) : bool :=
  match x, y with
  | finite a, finite b => Qle_bool a b
  | _, _ => false
  end.

(** [x > y] and [x < y], likewise. *)
Definition gt (x y : number) : bool :=
  match x, y with
  | finite a, finite b => negb (Qle_bool a b)
  | _, _ => false
  end.

Definition lt (x y : number) : bool :=
  match x, y with
  | finite a, finite b => negb (Qle_bool b a)
  | _, _ => false
  end.

Definition Math_abs (x : number) : number :=
  match x with
  | finite q => finite (Qabs q)
  | NaN => NaN
  end.

Definition isNaN (x : number) : bool :=
  match x with
  | finite _ => false
  | NaN => true
  end.

(** A number in a condition: 0 and NaN are falsy. *)
Definition truthy (x : number) : bool :=
  match x with
  | finite q => negb (Qeq_bool q 0)
  | NaN => false
  end.

End JS.

(** ** DataVisualization.tsx: the chart aggregations *)

Module DataVisualization.
Import JS.

(** [interface Profile]. The measured fields are held as parsed ([value]);
    [month] and [year] are integers, printed in decimal by [String]. *)
Record Profile : Type := {
  id : Z;
  latitude : value;
  longitude : value;
  depth : value;
  temperature : value;
  salinity : value;
  month : Z;
  year : Z
}.

(** *** Depth distribution *)

(** The property key of [acc[depth]]: [String(depth)]. *)
Definition String_value (v : value) : value :=
  match v with
  | VNum x => VNum (String_number x)
  | _ => v
  end.

Definition depthDistribution (filteredProfiles : list Profile) : object value nat :=
  foldl (fun acc profile =>
           let depth := String_value (depth profile) in
           set acc depth (default 0 (get acc depth) + 1))
        [] filteredProfiles.

(** [parseInt] of a property key: the digits before the decimal point, for a
    number whose decimal form is written without exponent; NaN for the keys
    "NaN", "null" and "undefined". *)
Definition parseInt (key : value) : number :=
  match key with
  | VNum (finite q) => finite (inject_Z (Z.quot (Qnum q) (Zpos (Qden q))))
  | _ => NaN
  end.

Definition entries_value {V} (o : object value V) : list (value * V) :=
  let idx (kv : value * V) :=
    match fst kv with VNum x => is_index x | _ => false end in
  let num (kv : value * V) :=
    match fst kv with VNum x => index_of x | _ => 0%Z end in
  sort (fun a b => finite (inject_Z (num a - num b))) (filter (fun kv => idx kv) o)
  ++ filter (fun kv => ~ idx kv) o.

Record DepthDatum : Type := { depth_of : number; depth_count : nat }.

Definition depthData (filteredProfiles : list Profile) : list DepthDatum :=
  sort (fun a b => sub (depth_of a) (depth_of b))
       ((fun '(depth, count) => {| depth_of := parseInt depth; depth_count := count |})
          <$> entries_value (depthDistribution filteredProfiles)).

(** *** Histograms with adjustable bin width *)

(** The loop shared by [tempBins] and [salBins]: [w] is the effective width,
    [field] selects [p.temperature] or [p.salinity]. *)
Definition binOf (w : number) (v : value) : number :=
  mul (Math_floor (div (ToNumber v) w)) w.

Definition fillBins (field : Profile -> value) (w : number)
    (filteredProfiles : list Profile) : object number nat :=
  foldl (fun bins p =>
           let bin := String_number (binOf w (field p)) in
           set bins bin (default 0 (get bins bin) + 1))
        [] filteredProfiles.

Record TempBin : Type := { temp : number; temp_count : nat }.
Record SalBin : Type := { sal : number; sal_count : nat }.

Definition tempBins (filteredProfiles : list Profile) (tempBinWidth : number)
    : list TempBin :=
  let w := Math_max (finite (1 # 10)) tempBinWidth in
  let bins := fillBins temperature w filteredProfiles in
  sort (fun a b => sub (temp a) (temp b))
       ((fun '(t, c) => {| temp := t; temp_count := c |}) <$> entries_number bins).

Definition salBins (filteredProfiles : list Profile) (salBinWidth : number)
    : list SalBin :=
  let w := Math_max (finite (1 # 10)) salBinWidth in
  let bins := fillBins salinity w filteredProfiles in
  sort (fun a b => sub (sal a) (sal b))
       ((fun '(s, c) => {| sal := s; sal_count := c |}) <$> entries_number bins).

(** *** Monthly series with a moving average *)

Record Group : Type := { sum : number; n : nat }.
Record Row : Type := { ym : string; avg : number }.
Record Point : Type := { row :> Row; ma : number }.

Definition yearMonth (p : Profile) : string :=
  pretty (year p) +:+ "-" +:+ padStart2 (pretty (month p)).

Definition groupBy (field : Profile -> value) (filteredProfiles : list Profile)
    : object string Group :=
  foldl (fun groups p =>
           let ym := yearMonth p in
           let groups :=
             match get groups ym with
             | Some _ => groups
             | None => set groups ym {| sum := finite 0; n := 0 |}
             end in
           let g := default {| sum := finite 0; n := 0 |} (get groups ym) in
           let groups := set groups ym {| sum := add (sum g) (ToNumber (field p)); n := n g |} in
           let g := default {| sum := finite 0; n := 0 |} (get groups ym) in
           set groups ym {| sum := sum g; n := n g + 1 |})
        [] filteredProfiles.

(** [ToIntegerOrInfinity], applied by [slice] to its arguments. *)
Definition ToInteger (x : number) : Z :=
  match x with
  | finite q => Z.quot (Qnum q) (Zpos (Qden q))
  | NaN => 0%Z
  end.

Definition of_Z (z : Z) : number := finite (inject_Z z).

Definition movingAverage (series : list Row) (maWindow : number) : list Point :=
  let w := Math_max (finite 1) (Math_floor maWindow) in
  let half := Math_floor (div (sub w (finite 1)) (finite 2)) in
  mapi (fun row i =>
          let start := Math_max (finite 0) (sub (of_Z i) half) in
          let stop := Math_min (of_Z (Z.of_nat (length series) - 1)) (add (of_Z i) half) in
          let slice := slice series (ToInteger start) (ToInteger (add stop (finite 1))) in
          let ma := div (foldl (fun acc r => add acc (avg r)) (finite 0) slice)
                        (of_nat (length slice)) in
          {| row := row; ma := ma |})
       series.

(** The sorted monthly averages. No key "YYYY-MM" is an array index, so
    [Object.entries] lists the groups in creation order. *)
Definition monthlySeries (field : Profile -> value) (filteredProfiles : list Profile)
    : list Row :=
  let groups := groupBy field filteredProfiles in
  sort (fun a b => localeCompare (ym a) (ym b))
       ((fun '(ym, v) => {| ym := ym; avg := div (sum v) (of_nat (n v)) |}) <$> groups).

Definition timeSeries (field : Profile -> value) (filteredProfiles : list Profile)
    (maWindow : number) : list Point :=
  let series := monthlySeries field filteredProfiles in
  movingAverage series maWindow.

Definition timeSeriesTemp := timeSeries temperature.

(** *** The number inputs of the chart controls *)



End DataVisualization.

(** ** The map component: bounds-keyed fetch with a cache *)

Module MapVisualization.

(** [x.toFixed(3)] on a finite number below 10^21: sign, then the integer [n]
    nearest to [|x| * 1000] (the larger one on a tie), written with at least
    four digits and a point before the last three. *)
Definition toFixed3 (x : Q) : string :=
  let s := if Qle_bool 0 x then "" else "-" in
  let n := Qfloor (Qabs x * 1000 + (1 # 2))%Q in
  let m := pretty n in
  let m := if String.length m <=? 3 then String.concat "" (replicate (4 - String.length m) "0") +:+ m else m in
  let k := String.length m in
  s +:+ String.substring 0 (k - 3) m +:+ "." +:+ String.substring (k - 3) 3 m.

(** [String(x)] for a number with a finite decimal expansion written without
    exponent: the integer part, then the decimals that are needed. *)
Fixpoint decimals (fuel : nat) (k : nat) (q : Q) : nat :=
  match fuel with
  | 0 => k
  | S fuel' =>
      if bool_decide (Qden (Qred (q * inject_Z (10 ^ Z.of_nat k))%Q) = 1%positive) then k
      else decimals fuel' (S k) q
  end.

Definition Number_toString (x : Q) : string :=
  let s := if Qle_bool 0 x then "" else "-" in
  let a := Qabs x in
  let k := decimals (Pos.to_nat (Pos.size (Qden (Qred a)))) 0 a in
  let n := Qfloor (a * inject_Z (10 ^ Z.of_nat k))%Q in
  let int := (n / 10 ^ Z.of_nat k)%Z in
  let frac := pretty (n mod 10 ^ Z.of_nat k)%Z in
  if k =? 0 then s +:+ pretty int
  else s +:+ pretty int +:+ "." +:+
       String.concat "" (replicate (k - String.length frac) "0") +:+ frac.

(** What [map.getBounds()] returns. *)
Record LatLngBounds : Type := {
  getSouth : Q;
  getWest : Q;
  getNorth : Q;
  getEast : Q
}.

(** The [filter] state: every entry is a number or [null]. *)
Record Filter : Type := {
  depth : option Q;
  temperature : option Q;
  salinityMin : option Q;
  salinityMax : option Q;
  monthMin : option Q;
  monthMax : option Q;
  yearMin : option Q;
  yearMax : option Q
}.

(** [v ?? 'any'], as [join] prints it. *)
Definition orAny (v : option Q) : string :=
  match v with
  | Some x => Number_toString x
  | None => "any"
  end.

Definition cacheKey (b : LatLngBounds) (filter : Filter) : string :=
  String.concat ","
    [ toFixed3 (getSouth b); toFixed3 (getWest b); toFixed3 (getNorth b); toFixed3 (getEast b);
      orAny (temperature filter);
      orAny (salinityMin filter); orAny (salinityMax filter);
      orAny (monthMin filter); orAny (monthMax filter);
      orAny (yearMin filter); orAny (yearMax filter) ].

Definition Qmax (a b : Q) : Q := if Qle_bool a b then b else a.
Definition Qmin (a b : Q) : Q := if Qle_bool a b then a else b.

(** The query of a request to [/data/profiles]: its parameters, in place of
    the URL text. *)
Record BoundsQuery : Type := {
  limit : Z;
  min_lat : Q;
  max_lat : Q;
  min_lon : Q;
  max_lon : Q;
  temp_min : option Q;
  temp_max : option Q;
  salinity_min : option Q;
  salinity_max : option Q;
  month_min : option Q;
  month_max : option Q;
  year_min : option Q;
  year_max : option Q
}.

Inductive request : Type :=
  | ProfilesInBounds (q : BoundsQuery)
  | ProfilesFallback (limit : Z).

Definition boundsQuery (b : LatLngBounds) (filter : Filter) : BoundsQuery :=
  let south := Qmax (-90)%Q (Qmin 90%Q (getSouth b)) in
  let north := Qmax (-90)%Q (Qmin 90%Q (getNorth b)) in
  let west := Qmax (-180)%Q (Qmin 180%Q (getWest b)) in
  let east := Qmax (-180)%Q (Qmin 180%Q (getEast b)) in
  {| limit := 500;
     min_lat := south; max_lat := north; min_lon := west; max_lon := east;
     temp_min := (fun t : Q => (t - (1 # 2))%Q) <$> temperature filter;
     temp_max := (fun t : Q => (t + (1 # 2))%Q) <$> temperature filter;
     salinity_min := salinityMin filter; salinity_max := salinityMax filter;
     month_min := monthMin filter; month_max := monthMax filter;
     year_min := yearMin filter; year_max := yearMax filter |}.

Section Fetch.
(** The rows of a response ([any[]] in the component). *)
Context {Row : Type}.

(** A request either yields [json.results || []] or throws. *)
Inductive response : Type :=
  | Results (rows : list Row)
  | Failure.

(** [cacheRef.current], and the [profiles] and [loading] state. *)
Record state : Type := {
  cache : gmap string (list Row);
  profiles : list Row;
  loading : bool
}.

Definition initial : state :=
  {| cache := ∅; profiles := []; loading := false |}.

Definition isEmpty (rows : list Row) : bool :=
  match rows with [] => true | _ => false end.

(** One call of [fetchProfiles] with the map at [b]: [fetch] answers each
    request of this call. Returns the state the call leaves and the
    requests it issued, in order. *)
Definition fetchProfiles (b : LatLngBounds) (filter : Filter)
    (fetch : request -> response) (st : state) : state * list request :=
  let cacheKey := cacheKey b filter in
  match cache st !! cacheKey with
  | Some rows => ({| cache := cache st; profiles := rows; loading := false |}, [])
  | None =>
      let url := ProfilesInBounds (boundsQuery b filter) in
      match fetch url with
      | Results profilesData =>
          let cache1 := <[cacheKey := profilesData]> (cache st) in
          if isEmpty profilesData then
            let fallbackUrl := ProfilesFallback 200 in
            match fetch fallbackUrl with
            | Results fallbackData =>
                ({| cache := <["fallback" := fallbackData]> cache1;
                    profiles := fallbackData; loading := false |},
                 [url; fallbackUrl])
            | Failure =>
                ({| cache := cache1; profiles := profilesData; loading := false |},
                 [url; fallbackUrl])
            end
          else
            ({| cache := cache1; profiles := profilesData; loading := false |}, [url])
      | Failure =>
          match cache st !! "fallback" with
          | Some fallbackData =>
              ({| cache := cache st; profiles := fallbackData; loading := false |}, [url])
          | None =>
              ({| cache := cache st; profiles := profiles st; loading := false |}, [url])
          end
      end
  end.

(** A call as the component makes it: the bounds of the map, the filters in
    force and how the network answers during that call. *)
Record call : Type := {
  bounds : LatLngBounds;
  filters : Filter;
  network : request -> response
}.

(** Calls run one after the other; the requests of all of them. *)
Fixpoint run (calls : list call) (st : state) : state * list request :=
  match calls with
  | [] => (st, [])
  | c :: calls' =>
      let '(st1, reqs1) := fetchProfiles (bounds c) (filters c) (network c) st in
      let '(st2, reqs2) := run calls' st1 in
      (st2, reqs1 ++ reqs2)
  end.
End Fetch.

Global Arguments response : clear implicits.
Global Arguments state : clear implicits.
Global Arguments call : clear implicits.

(** *** The explanation of the view *)

(** The parameters [explainView] sends to [/data/explain]. *)
Record ExplainQuery : Type := {
  explain_min_lat : Q;
  explain_max_lat : Q;
  explain_min_lon : Q;
  explain_max_lon : Q;
  explain_temp_min : option Q;
  explain_temp_max : option Q
}.

Definition explainQuery (b : LatLngBounds) (filter : Filter) : ExplainQuery :=
  let south := Qmax (-90)%Q (Qmin 90%Q (getSouth b)) in
  let north := Qmax (-90)%Q (Qmin 90%Q (getNorth b)) in
  let west := Qmax (-180)%Q (Qmin 180%Q (getWest b)) in
  let east := Qmax (-180)%Q (Qmin 180%Q (getEast b)) in
  {| explain_min_lat := south; explain_max_lat := north;
     explain_min_lon := west; explain_max_lon := east;
     explain_temp_min := (fun t : Q => (t - (1 # 2))%Q) <$> temperature filter;
     explain_temp_max := (fun t : Q => (t + (1 # 2))%Q) <$> temperature filter |}.

(** *** Markers *)

(** The predicate of [profiles.filter] in the marker effect. The rows are
    read as [DataVisualization.Profile] records. *)
Definition markerFilter (filter : Filter) (p : DataVisualization.Profile) : bool :=
  let byTemp :=
    match temperature filter with
    | None => true
    | Some t => JS.strictEq (JS.Math_round (JS.ToNumber (DataVisualization.temperature p)))
                            (JS.Math_round (JS.finite t))
    end in
  let bySalMin :=
    match salinityMin filter with
    | None => true
    | Some m => JS.geq (JS.ToNumber (DataVisualization.salinity p)) (JS.finite m)
    end in
  let bySalMax :=
    match salinityMax filter with
    | None => true
    | Some m => JS.leq (JS.ToNumber (DataVisualization.salinity p)) (JS.finite m)
    end in
  let byMonthMin :=
    match monthMin filter with
    | None => true
    | Some m => JS.geq (JS.finite (inject_Z (DataVisualization.month p))) (JS.finite m)
    end in
  let byMonthMax :=
    match monthMax filter with
    | None => true
    | Some m => JS.leq (JS.finite (inject_Z (DataVisualization.month p))) (JS.finite m)
    end in
  let byYearMin :=
    match yearMin filter with
    | None => true
    | Some m => JS.geq (JS.finite (inject_Z (DataVisualization.year p))) (JS.finite m)
    end in
  let byYearMax :=
    match yearMax filter with
    | None => true
    | Some m => JS.leq (JS.finite (inject_Z (DataVisualization.year p))) (JS.finite m)
    end in
  byTemp && bySalMin && bySalMax && byMonthMin && byMonthMax && byYearMin && byYearMax.





(** *** Filters in the address bar *)

(** [URLSearchParams]: the name-value pairs of the query, in order. [get]
    reads the first pair of a name, [set] overwrites it and drops the others
    (or appends a pair), [delete] drops them all. *)
Definition URLSearchParams : Type := list (string * string).

Definition params_get (params : URLSearchParams) (name : string) : option string :=
  snd <$> List.find (fun kv => bool_decide (fst kv = name)) params.

Definition params_delete (params : URLSearchParams) (name : string) : URLSearchParams :=
  List.filter (fun kv => negb (bool_decide (fst kv = name))) params.

Fixpoint params_set (params : URLSearchParams) (name value : string) : URLSearchParams :=
  match params with
  | [] => [(name, value)]
  | (k, v) :: rest =>
      if decide (k = name) then (name, value) :: params_delete rest name
      else (k, v) :: params_set rest name value
  end.

Section Url.
(** [String] of a filter value and [Number] of a parameter. *)
Context (String_ : Q -> string) (Number : string -> JS.number).

Definition getNum (params : URLSearchParams) (key : string) : option Q :=
  match params_get params key with
  | None => None
  | Some v =>
      if decide (v = "") then None
      else match Number v with
           | JS.finite n => Some n
           | JS.NaN => None
           end
  end.

(** The filter the mount effect sets: every entry of [initialFilter]
    overrides the one of [prev]. *)
Definition loadFilter (params : URLSearchParams) (prev : Filter) : Filter :=
  {| depth := getNum params "depth";
     temperature := getNum params "temperature";
     salinityMin := getNum params "sal_min";
     salinityMax := getNum params "sal_max";
     monthMin := getNum params "month_min";
     monthMax := getNum params "month_max";
     yearMin := getNum params "year_min";
     yearMax := getNum params "year_max" |}.

Definition setOrDel (params : URLSearchParams) (k : string) (v : option Q)
    : URLSearchParams :=
  match v with
  | None => params_delete params k
  | Some x => params_set params k (String_ x)
  end.

(** The parameters the persist effect writes back to the address bar. *)
Definition persistFilter (params : URLSearchParams) (filter : Filter) : URLSearchParams :=
  let params := setOrDel params "temperature" (temperature filter) in
  let params := setOrDel params "sal_min" (salinityMin filter) in
  let params := setOrDel params "sal_max" (salinityMax filter) in
  let params := setOrDel params "month_min" (monthMin filter) in
  let params := setOrDel params "month_max" (monthMax filter) in
  let params := setOrDel params "year_min" (yearMin filter) in
  let params := setOrDel params "year_max" (yearMax filter) in
  params.
End Url.

End MapVisualization.

(** ** The filters of the dashboard *)

Module Filters.
Import JS DataVisualization.

(** [s.includes(t)]. *)
Fixpoint includes (s t : string) : bool :=
  if String.prefix t s then true
  else match s with
       | EmptyString => false
       | String _ s' => includes s' t
       end.

(** [v.toString()] on a field declared [number]: the decimal form of a
    finite number ([MapVisualization.Number_toString]), "NaN" for NaN, and a
    TypeError ([None]) when the field holds [null] or is missing. *)
Definition toString (v : value) : option string :=
  match v with
  | VNum (finite q) => Some (MapVisualization.Number_toString q)
  | VNum NaN => Some "NaN"
  | _ => None
  end.

(** The predicate of the search: the three tests of [||] in order, each
    evaluated only when the ones before it are false. *)
Definition searchMatches (searchTerm : string) (p : Profile) : option bool :=
  if includes (pretty (id p)) searchTerm then Some true
  else
    lat ← toString (latitude p);
    if includes lat searchTerm then Some true
    else
      lng ← toString (longitude p);
      Some (includes lng searchTerm).

(** [Array.prototype.filter] with a predicate that may throw: the elements
    are tested in order and the first exception ends the call. *)
Fixpoint filterThrowing {A} (f : A -> option bool) (l : list A) : option (list A) :=
  match l with
  | [] => Some []
  | a :: l' =>
      keep ← f a;
      rest ← filterThrowing f l';
      Some (if keep : bool then a :: rest else rest)
  end.

(** [p.depth === selectedDepth]. *)
Definition depthIs (selectedDepth : number) (p : Profile) : bool :=
  match depth p with
  | VNum x => strictEq x selectedDepth
  | _ => false
  end.

(** [filterProfiles]: the list handed to [setFilteredProfiles], or [None]
    when the search throws and the state is left as it was. The empty search
    term is falsy and skips the search. *)
Definition filterProfiles (profiles : list Profile) (searchTerm : string)
    (selectedDepth : option number) : option (list Profile) :=
  filtered ←
    (if decide (searchTerm = "") then Some profiles
     else filterThrowing (searchMatches searchTerm) profiles);
  Some (match selectedDepth with
        | Some d => List.filter (depthIs d) filtered
        | None => filtered
        end).

End Filters.

(** ** The form that inserts, updates and deletes a profile *)

Module InsertData.
Import JS.

(** [FormState]: the text of every input. *)
Record FormState : Type := {
  float_id : string;
  latitude : string;
  longitude : string;
  depth : string;
  temperature : string;
  salinity : string;
  month : string;
  year : string;
  date : string
}.

Definition initialState : FormState :=
  {| float_id := "dev-float"; latitude := ""; longitude := ""; depth := "";
     temperature := ""; salinity := ""; month := ""; year := ""; date := "" |}.

(** The body of a POST or PUT request. *)
Record Payload : Type := {
  payload_float_id : string;
  payload_latitude : number;
  payload_longitude : number;
  payload_depth : number;
  payload_temperature : number;
  payload_salinity : number;
  payload_month : number;
  payload_year : number;
  payload_date : option string
}.

Inductive request : Type :=
  | POST (body : Payload)
  | PUT (id : number) (body : Payload)
  | DELETE (id : number).

(** How a handler ends: with an error message, with validation errors, with
    the user declining the confirmation, or with a request sent. *)
Inductive outcome : Type :=
  | Rejected (error : string)
  | Invalid (errors : object string string)
  | Cancelled
  | Sent (r : request).

Section Form.
(** [Number] applied to the text of an input. *)
Context (Number : string -> number).

(** The [errors] object [validateForm] builds, its properties in the order
    they are assigned. An empty text is falsy. *)
Definition validationErrors (form : FormState) : object string string :=
  let errors : object string string := [] in
  let errors :=
    if decide (latitude form = "") then set errors "latitude" "Latitude is required"
    else if gt (Math_abs (Number (latitude form))) (finite 90)
         then set errors "latitude" "Latitude must be between -90 and 90"
         else errors in
  let errors :=
    if decide (longitude form = "") then set errors "longitude" "Longitude is required"
    else if gt (Math_abs (Number (longitude form))) (finite 180)
         then set errors "longitude" "Longitude must be between -180 and 180"
         else errors in
  let errors :=
    if decide (depth form = "") then set errors "depth" "Depth is required"
    else if lt (Number (depth form)) (finite 0)
         then set errors "depth" "Depth must be positive"
         else errors in
  let errors :=
    if decide (temperature form = "") then set errors "temperature" "Temperature is required"
    else if lt (Number (temperature form)) (finite (-5))
            || gt (Number (temperature form)) (finite 50)
         then set errors "temperature" "Temperature should be between -5°C and 50°C"
         else errors in
  let errors :=
    if decide (salinity form = "") then set errors "salinity" "Salinity is required"
    else if lt (Number (salinity form)) (finite 0)
            || gt (Number (salinity form)) (finite 50)
         then set errors "salinity" "Salinity should be between 0 and 50 PSU"
         else errors in
  let errors :=
    if decide (month form = "") then set errors "month" "Month is required"
    else if lt (Number (month form)) (finite 1)
            || gt (Number (month form)) (finite 12)
         then set errors "month" "Month must be between 1 and 12"
         else errors in
  let errors :=
    if decide (year form = "") then set errors "year" "Year is required"
    else if lt (Number (year form)) (finite 1900)
            || gt (Number (year form)) (finite 2100)
         then set errors "year" "Year must be between 1900 and 2100"
         else errors in
  errors.

(** [Object.keys(errors).length === 0]. *)
Definition validateForm (form : FormState) : bool :=
  length (validationErrors form).*1 =? 0.

Definition payload (form : FormState) : Payload :=
  {| payload_float_id := if decide (float_id form = "") then "dev-float" else float_id form;
     payload_latitude := Number (latitude form);
     payload_longitude := Number (longitude form);
     payload_depth := Number (depth form);
     payload_temperature := Number (temperature form);
     payload_salinity := Number (salinity form);
     payload_month := Number (month form);
     payload_year := Number (year form);
     payload_date := if decide (date form = "") then None else Some (date form) |}.

(** [submit], up to the request it sends. *)
Definition submit (form : FormState) : outcome :=
  if negb (validateForm form) then Invalid (validationErrors form)
  else Sent (POST (payload form)).

(** A [number | null] in a condition. *)
Definition loaded (loadedProfileId : option number) : bool :=
  match loadedProfileId with
  | Some id => truthy id
  | None => false
  end.

Definition updateProfile (loadedProfileId : option number) (form : FormState) : outcome :=
  if negb (loaded loadedProfileId) then Rejected "Load a profile first to update"
  else if negb (validateForm form) then Invalid (validationErrors form)
  else
    match loadedProfileId with
    | Some id => Sent (PUT id (payload form))
    | None => Rejected "Load a profile first to update"
    end.

(** [deleteProfile]; [confirm] is the user's answer to the confirmation,
    asked only when the id has passed the checks. *)
Definition deleteProfile (loadedProfileId : option number) (profileId : string)
    (confirm : bool) : outcome :=
  if negb (loaded loadedProfileId) && bool_decide (profileId = "")
  then Rejected "Enter or load a Profile ID to delete"
  else
    let id := match loadedProfileId with
              | Some id => id
              | None => Number profileId
              end in
    if negb (truthy id) || isNaN id then Rejected "Invalid Profile ID"
    else if negb confirm then Cancelled
    else Sent (DELETE id).
End Form.

(** What [/data/profile/{id}] answers: every field holds a value or is
    [null] (or missing). *)
Record ProfileJson : Type := {
  json_id : option Q;
  json_float_id : option string;
  json_latitude : option Q;
  json_longitude : option Q;
  json_depth : option Q;
  json_temperature : option Q;
  json_salinity : option Q;
  json_month : option Q;
  json_year : option Q;
  json_date : option string
}.

(** The fetch of [loadProfile] yields the parsed body, or throws an error
    with a message. *)
Inductive response : Type :=
  | Ok (p : ProfileJson)
  | Failed (message : string).

(** The form, the id box, the loaded id and the error shown. *)
Record state : Type := {
  form : FormState;
  profileId : string;
  loadedProfileId : option number;
  error : option string
}.

Section Load.
(** [String] of a number of the answer. *)
Context (String_ : Q -> string).

(** [String(v ?? '')]. *)
Definition text (v : option Q) : string :=
  match v with
  | Some x => String_ x
  | None => ""
  end.

Definition loadProfile (st : state) (fetch : response) : state :=
  if decide (profileId st = "")
  then {| form := form st; profileId := profileId st;
          loadedProfileId := loadedProfileId st;
          error := Some "Enter a Profile ID to load" |}
  else
    match fetch with
    | Ok p =>
        {| form :=
             {| float_id := default "dev-float" (json_float_id p);
                latitude := text (json_latitude p);
                longitude := text (json_longitude p);
                depth := text (json_depth p);
                temperature := text (json_temperature p);
                salinity := text (json_salinity p);
                month := text (json_month p);
                year := text (json_year p);
                date := match json_date p with
                        | Some d => if decide (d = "") then "" else String.substring 0 10 d
                        | None => ""
                        end |};
           profileId := profileId st;
           loadedProfileId := finite <$> json_id p;
           error := None |}
    | Failed message =>
        {| form := form st; profileId := profileId st;
           loadedProfileId := loadedProfileId st;
           error := Some (if decide (message = "") then "Failed to load profile"
                          else message) |}
    end.
End Load.

End InsertData.

Import JS DataVisualization.

(** ** Vocabulary of the statements *)

Global Instance Qeq_decision (a b : Q) : Decision (a == b) := Qeq_dec a b.
Global Instance Qlt_decision (a b : Q) : Decision (a < b)%Q.
Proof. destruct (Qlt_le_dec a b); [left | right]; auto using Qle_not_lt. Defined.

(** The order of numbers: NaN is comparable with nothing. *)
Definition num_lt (x y : number) : Prop :=
  match x, y with
  | finite a, finite b => (a < b)%Q
  | _, _ => False
  end.

(** A field whose coercion to a number is finite: it holds a finite number,
    or [null], which arithmetic reads as 0. [numberOf] is that number. *)
Definition numeric (v : value) : Prop :=
  match v with VNum (finite _) | VNull => True | _ => False end.

Definition numberOf (v : value) : Q :=
  match v with VNum (finite q) => q | _ => 0%Q end.

(** A field that is [null] or missing. *)
Definition isNull (v : value) : bool :=
  match v with VNum _ => false | _ => true end.



(** A record with the given depth, temperature, salinity, month and year. *)
Definition profile (d t s : value) (m y : Z) : Profile :=
  {| id := 0; latitude := VNum (finite 0); longitude := VNum (finite 0);
     depth := d; temperature := t; salinity := s; month := m; year := y |}.

Definition num (q : Q) : value := VNum (finite q).


(** The records of [l] whose year-month key is [k]. *)
Definition monthRecords (k : string) (l : list Profile) : list Profile :=
  filter (fun p => yearMonth p = k) l.

(** The mean of a field over records: the sum, from 0 and in order, over the
    number of records. *)
Definition meanOf (field : Profile -> value) (rs : list Profile) : number :=
  div (foldl (fun acc p => add acc (ToNumber (field p))) (finite 0) rs)
      (of_nat (length rs)).

(** The group the loop builds for the records [rs] of one month. *)
Definition groupOf (field : Profile -> value) (rs : list Profile) : Group :=
  {| sum := foldl (fun acc p => add acc (ToNumber (field p))) (finite 0) rs;
     n := length rs |}.

(** The coerced window size [max(1, floor(maWindow))] and its half width
    [floor((w - 1) / 2)]. *)
Definition windowSize (maWindow : Q) : Z := Z.max 1 (Qfloor maWindow).
Definition halfWidth (w : Z) : Z := ((w - 1) / 2)%Z.

(** The inclusive slice [lo .. hi] of a list. *)
Definition window {A} (series : list A) (lo hi : Z) : list A :=
  take (Z.to_nat (hi - lo + 1)) (drop (Z.to_nat lo) series).

(** The mean of the monthly averages of some rows, as [reduce] and the
    division compute it. *)
Definition meanAvg (rows : list Row) : number :=
  div (foldl (fun acc r => add acc (avg r)) (finite 0) rows) (of_nat (length rows)).

(** The three temperatures of the specification's histogram example. *)
Definition threeTemperatures : list Profile :=
  [ profile (num 10) (num (102 # 10)) (num 35) 1 2024;
    profile (num 10) (num (108 # 10)) (num 35) 1 2024;
    profile (num 10) (num (113 # 10)) (num 35) 1 2024 ].

(** The three months of the specification's series example, and a shorter
    series. *)
Definition january2024 : Profile := profile (num 10) (num 5) (num 35) 1 2024.
Definition february2024 : Profile := profile (num 10) (num 7) (num 35) 2 2024.
Definition march2024 : Profile := profile (num 10) (num 9) (num 35) 3 2024.

Definition threeMonths : list Profile := [ january2024; february2024; march2024 ].
Definition twoMonths : list Profile := [ january2024; february2024 ].

(** Chronological order of the months two records fall in, and the dates
    whose key has the shape "YYYY-MM". *)
Definition chronological (p1 p2 : Profile) : Prop :=
  (year p1 < year p2 \/ (year p1 = year p2 /\ month p1 < month p2))%Z.

Definition calendarDate (p : Profile) : Prop :=
  (1000 <= year p <= 9999 /\ 1 <= month p <= 12)%Z.

(** The decimal digit [z] as a character. *)
Definition digitChar (z : Z) : Ascii.ascii := pretty_N_char (Z.to_N z).

(** December 999 and January 1000. *)
Definition december999 : Profile := profile (num 10) (num 5) (num 35) 12 999.
Definition january1000 : Profile := profile (num 10) (num 7) (num 35) 1 1000.

(** A depth that is a whole number of metres, and that number. *)
Definition wholeDepth (v : value) : Prop :=
  match v with
  | VNum (finite q) => q == inject_Z (Qfloor q)
  | _ => False
  end.

Definition metres (p : Profile) : Z := Qfloor (numberOf (depth p)).

(** Two records at depths 10.2 m and 10.5 m. *)
Definition depth10_2 : Profile := profile (num (102 # 10)) (num 5) (num 35) 1 2024.
Definition depth10_5 : Profile := profile (num (105 # 10)) (num 5) (num 35) 1 2024.

(** A record whose temperature is [null], and one without a temperature. *)
Definition nullTemperature : Profile :=
  profile (num 10) VNull (num 35) 1 2024.

Definition missingTemperature : Profile :=
  profile (num 10) VUndefined (num 35) 1 2024.

(** *** The map component *)

Module Map := MapVisualization.

(** Raw bounds that already lie in the valid geographic ranges. *)
Definition inRange (b : Map.LatLngBounds) : Prop :=
  (-90 <= Map.getSouth b <= 90 /\ -90 <= Map.getNorth b <= 90 /\
   -180 <= Map.getWest b <= 180 /\ -180 <= Map.getEast b <= 180)%Q.



(** Whether the character [c] occurs in [s]. *)
Fixpoint occurs (c : Ascii.ascii) (s : string) : bool :=
  match s with
  | EmptyString => false
  | String c' s' => if Ascii.eqb c c' then true else occurs c s'
  end.

(** The request a call sends on a cache miss. *)
Definition boundsRequest (b : Map.LatLngBounds) (filter : Map.Filter) : Map.request :=
  Map.ProfilesInBounds (Map.boundsQuery b filter).

Definition noFilter : Map.Filter :=
  {| Map.depth := None; Map.temperature := None;
     Map.salinityMin := None; Map.salinityMax := None;
     Map.monthMin := None; Map.monthMax := None;
     Map.yearMin := None; Map.yearMax := None |}.

(** Two zoomed-out views that reach past the date line on both sides, and
    three views inside the valid ranges. *)
Definition wideView : Map.LatLngBounds :=
  {| Map.getSouth := -60; Map.getWest := -200; Map.getNorth := 80; Map.getEast := 200 |}.
Definition viewA : Map.LatLngBounds :=
  {| Map.getSouth := 0; Map.getWest := 0; Map.getNorth := 10; Map.getEast := 10 |}.
Definition viewB : Map.LatLngBounds :=
  {| Map.getSouth := 20; Map.getWest := 20; Map.getNorth := 30; Map.getEast := 30 |}.


(** Networks for the examples; the rows are record identifiers. *)
Definition answering (rows : list Z) : Map.request -> Map.response Z :=
  fun _ => Map.Results rows.
Definition failing : Map.request -> Map.response Z :=
  fun _ => Map.Failure.
Definition emptyThenFallback (rows : list Z) : Map.request -> Map.response Z :=
  fun r => match r with
           | Map.ProfilesInBounds _ => Map.Results []
           | Map.ProfilesFallback _ => Map.Results rows
           end.

Definition callAt (b : Map.LatLngBounds) (fetch : Map.request -> Map.response Z)
    : Map.call Z :=
  {| Map.bounds := b; Map.filters := noFilter; Map.network := fetch |}.

(** A number in lowest terms, as a property key holds it. *)
Definition canonical (x : number) : Prop :=
  match x with finite q => Qred q = q | NaN => False end.

(** The counting loop the three distributions share: one property per key,
    holding the number of records met so far with that key. *)
Definition tally {A K} `{EqDecision K} (key : A -> K) (l : list A) : object K nat :=
  foldl (fun o p => set o (key p) (default 0 (get o (key p)) + 1)) [] l.

(** How many elements of [l] have the key [k]. *)
Definition occurrences {A K} `{EqDecision K} (key : A -> K) (k : K) (l : list A) : nat :=
  length (filter (fun p => key p = k) l).

(** *** Further vocabulary *)

(** The filter that selects a temperature and nothing else. *)
Definition temperatureOnly (t : Q) : Map.Filter :=
  {| Map.depth := None; Map.temperature := Some t;
     Map.salinityMin := None; Map.salinityMax := None;
     Map.monthMin := None; Map.monthMax := None;
     Map.yearMin := None; Map.yearMax := None |}.

(** The integer nearest to [t], a half going up. *)
Definition nearest (t : Q) : Z := Qfloor (t + (1 # 2)).

(** A record on the map: identifier, position and temperature. *)
Definition located (i : Z) (lat lng : value) (t : value) : Profile :=
  {| id := i; latitude := lat; longitude := lng;
     depth := num 10; temperature := t; salinity := num 35; month := 1; year := 2024 |}.

(** The filter [filter] with another depth selected. *)
Definition withDepth (d : option Q) (filter : Map.Filter) : Map.Filter :=
  {| Map.depth := d; Map.temperature := Map.temperature filter;
     Map.salinityMin := Map.salinityMin filter; Map.salinityMax := Map.salinityMax filter;
     Map.monthMin := Map.monthMin filter; Map.monthMax := Map.monthMax filter;
     Map.yearMin := Map.yearMin filter; Map.yearMax := Map.yearMax filter |}.

(** A depth that equals the selected one. *)
Definition atDepth (d : number) (p : Profile) : Prop :=
  exists q dq, depth p = VNum (finite q) /\ d = finite dq /\ q == dq.

(** *** The form *)

(** A converted input that no range check rejects: NaN, or a number in
    [lo, hi] (resp. not below [lo]). *)
Definition notOutside (lo hi : Q) (x : number) : Prop :=
  match x with
  | finite q => (lo <= q <= hi)%Q
  | NaN => True
  end.

Definition notBelow (lo : Q) (x : number) : Prop :=
  match x with
  | finite q => (lo <= q)%Q
  | NaN => True
  end.

(** The ranges [validateForm] checks, on the body of a request. *)
Definition inRanges (body : InsertData.Payload) : Prop :=
  notOutside (-90) 90 (InsertData.payload_latitude body) /\
  notOutside (-180) 180 (InsertData.payload_longitude body) /\
  notBelow 0 (InsertData.payload_depth body) /\
  notOutside (-5) 50 (InsertData.payload_temperature body) /\
  notOutside 0 50 (InsertData.payload_salinity body) /\
  notOutside 1 12 (InsertData.payload_month body) /\
  notOutside 1900 2100 (InsertData.payload_year body).

(** No input of the form is empty. *)
Definition filledIn (form : InsertData.FormState) : Prop :=
  InsertData.latitude form <> "" /\ InsertData.longitude form <> "" /\
  InsertData.depth form <> "" /\ InsertData.temperature form <> "" /\
  InsertData.salinity form <> "" /\ InsertData.month form <> "" /\
  InsertData.year form <> "".

(** *** The address bar *)

(** The filter entries the persist effect writes, and their parameters. *)
Definition persisted (filter : Map.Filter) : list (option Q) :=
  [ Map.temperature filter; Map.salinityMin filter; Map.salinityMax filter;
    Map.monthMin filter; Map.monthMax filter; Map.yearMin filter; Map.yearMax filter ].

Definition persistedKeys : list string :=
  [ "temperature"; "sal_min"; "sal_max"; "month_min"; "month_max"; "year_min"; "year_max" ].

(** A filter value whose text is not empty and converts back to it. *)
Definition roundTrips (String_ : Q -> string) (Number : string -> number)
    (v : option Q) : Prop :=
  match v with
  | Some x => String_ x <> "" /\ Number (String_ x) = finite x
  | None => True
  end.

(** [Number] on a decimal literal: an optional sign, digits and at most one
    point, read as a fraction in lowest terms; anything else is read as
    NaN. *)
Fixpoint decimalLiteral (s : string) (seenPoint : bool) (n : Z) (d : positive)
    : option Q :=
  match s with
  | EmptyString => Some (n # d)
  | String c s' =>
      if Ascii.eqb c "."
      then if seenPoint then None else decimalLiteral s' true n d
      else
        let k := Z.of_nat (nat_of_ascii c) - 48 in
        if (0 <=? k) && (k <=? 9)
        then decimalLiteral s' seenPoint (10 * n + k) (if seenPoint then 10 * d else d)
        else None
  end%Z.

Definition Number_of_decimal (s : string) : number :=
  match s with
  | String "-" s' =>
      match decimalLiteral s' false 0 1 with
      | Some q => finite (Qred (- q))
      | None => NaN
      end
  | _ =>
      match decimalLiteral s false 0 1 with
      | Some q => finite (Qred q)
      | None => NaN
      end
  end.

(** The numbers of an answer, in the order of the form, and an answer none
    of whose numbers is [null]. *)
Definition numbersOf (p : InsertData.ProfileJson) : list (option Q) :=
  [ InsertData.json_latitude p; InsertData.json_longitude p; InsertData.json_depth p;
    InsertData.json_temperature p; InsertData.json_salinity p;
    InsertData.json_month p; InsertData.json_year p ].

Definition complete (p : InsertData.ProfileJson) : Prop :=
  Forall is_Some (numbersOf p).

(** A number of an answer as a request carries it. *)
Definition sent (v : option Q) : number :=
  match v with
  | Some x => finite x
  | None => NaN
  end.

(** The body that writes an answer back as it is: the float id defaults to
    "dev-float" and the date is cut to its first ten characters. *)
Definition bodyOf (p : InsertData.ProfileJson) : InsertData.Payload :=
  {| InsertData.payload_float_id :=
       match InsertData.json_float_id p with
       | Some s => if decide (s = "") then "dev-float" else s
       | None => "dev-float"
       end;
     InsertData.payload_latitude := sent (InsertData.json_latitude p);
     InsertData.payload_longitude := sent (InsertData.json_longitude p);
     InsertData.payload_depth := sent (InsertData.json_depth p);
     InsertData.payload_temperature := sent (InsertData.json_temperature p);
     InsertData.payload_salinity := sent (InsertData.json_salinity p);
     InsertData.payload_month := sent (InsertData.json_month p);
     InsertData.payload_year := sent (InsertData.json_year p);
     InsertData.payload_date :=
       match InsertData.json_date p with
       | Some d => if decide (d = "") then None else Some (String.substring 0 10 d)
       | None => None
       end |}.

(** An answer for the examples, and a state with an id typed in. *)
Definition profile42 : InsertData.ProfileJson :=
  {| InsertData.json_id := Some 42%Q; InsertData.json_float_id := Some "float-7";
     InsertData.json_latitude := Some (25 # 2)%Q; InsertData.json_longitude := Some (-30)%Q;
     InsertData.json_depth := Some 100%Q; InsertData.json_temperature := Some (41 # 2)%Q;
     InsertData.json_salinity := Some 35%Q; InsertData.json_month := Some 5%Q;
     InsertData.json_year := Some 2024%Q;
     InsertData.json_date := Some "2024-05-17T00:00:00" |}.

Definition typed42 : InsertData.state :=
  {| InsertData.form := InsertData.initialState; InsertData.profileId := "42";
     InsertData.loadedProfileId := None; InsertData.error := None |}.

(** ** Objects used as dictionaries *)

Section object_facts.
Context {K V : Type} `{EqDecision K}.
Implicit Types (o : object K V) (k : K) (v : V).

Lemma get_set_eq o k v : get (set o k v) k = Some v.
Proof.
  induction o as [|[k' v'] o IH]; simpl.
  - destruct (decide (k = k)); congruence.
  - destruct (decide (k' = k)) as [->|Hne]; simpl.
    + destruct (decide (k = k)); congruence.
    + destruct (decide (k' = k)); [congruence | exact IH].
Qed.

Lemma get_set_ne o k k' v : k <> k' -> get (set o k v) k' = get o k'.
Proof.
  intros Hne. induction o as [|[k0 v0] o IH]; simpl.
  - destruct (decide (k = k')); [congruence | reflexivity].
  - destruct (decide (k0 = k)) as [->|Hne0]; simpl.
    + destruct (decide (k = k')); [congruence | reflexivity].
    + destruct (decide (k0 = k')); [reflexivity | exact IH].
Qed.

Lemma get_None o k : get o k = None <-> k ∉ o.*1.
Proof.
  induction o as [|[k' v'] o IH]; simpl.
  - split; [intros _; apply not_elem_of_nil | reflexivity].
  - rewrite not_elem_of_cons. destruct (decide (k' = k)) as [->|Hne].
    + split; [discriminate | tauto].
    + rewrite IH. split; [intros; split; [congruence | assumption] | tauto].
Qed.

Lemma keys_set o k v :
  (set o k v).*1 = match get o k with Some _ => o.*1 | None => o.*1 ++ [k] end.
Proof.
  induction o as [|[k' v'] o IH]; csimpl; [reflexivity|].
  destruct (decide (k' = k)) as [->|Hne]; csimpl; [reflexivity|].
  rewrite IH. destruct (get o k); reflexivity.
Qed.

Lemma NoDup_set o k v : NoDup o.*1 -> NoDup (set o k v).*1.
Proof.
  intros Hnd. rewrite keys_set.
  destruct (get o k) eqn:Hg; [exact Hnd|].
  apply get_None in Hg.
  apply NoDup_app. repeat split.
  - exact Hnd.
  - intros x Hx Hin. apply list_elem_of_singleton in Hin. congruence.
  - apply NoDup_singleton.
Qed.

Lemma get_Some_elem_of o k v : get o k = Some v -> (k, v) ∈ o.
Proof.
  induction o as [|[k' v'] o IH]; simpl; [discriminate|].
  destruct (decide (k' = k)) as [->|Hne].
  - intros [= ->]. apply list_elem_of_here.
  - intros Hg. apply list_elem_of_further. now apply IH.
Qed.

Lemma elem_of_get_Some o k v : NoDup o.*1 -> (k, v) ∈ o -> get o k = Some v.
Proof.
  induction o as [|[k' v'] o IH]; simpl.
  - intros _ Hin. now apply elem_of_nil in Hin.
  - intros Hnd Hin. apply NoDup_cons in Hnd as [Hnotin Hnd].
    apply elem_of_cons in Hin as [Heq|Hin].
    + injection Heq as -> ->. destruct (decide (k' = k')); congruence.
    + destruct (decide (k' = k)) as [->|Hne]; [|now apply IH].
      exfalso. apply Hnotin. apply list_elem_of_fmap. now exists (k, v).
Qed.
End object_facts.

(** ** The counting loop *)

Section tally_facts.
Context {A K : Type} `{EqDecision K} (key : A -> K).
Implicit Types (l : list A) (k : K).

Lemma tally_snoc l p :
  tally key (l ++ [p]) =
  set (tally key l) (key p) (default 0 (get (tally key l) (key p)) + 1).
Proof. unfold tally. now rewrite foldl_app. Qed.

Lemma occurrences_snoc k l p :
  occurrences key k (l ++ [p]) =
  occurrences key k l + (if decide (key p = k) then 1 else 0).
Proof.
  unfold occurrences. rewrite filter_app, length_app. f_equal.
  rewrite filter_cons, filter_nil.
  destruct (decide (key p = k)); reflexivity.
Qed.

Lemma tally_get l k :
  get (tally key l) k =
  match occurrences key k l with 0 => None | c => Some c end.
Proof.
  induction l as [|p l IH] using rev_ind; [reflexivity|].
  rewrite tally_snoc, occurrences_snoc.
  destruct (decide (key p = k)) as [->|Hne].
  - rewrite get_set_eq, IH.
    destruct (occurrences key k l); simpl; f_equal; lia.
  - rewrite get_set_ne by exact Hne. rewrite IH, Nat.add_0_r. reflexivity.
Qed.

Lemma tally_NoDup l : NoDup (tally key l).*1.
Proof.
  induction l as [|p l IH] using rev_ind; [constructor|].
  rewrite tally_snoc. now apply NoDup_set.
Qed.

Lemma occurrences_pos k l : 0 < occurrences key k l <-> exists p, p ∈ l /\ key p = k.
Proof.
  unfold occurrences. split.
  - intros Hpos. destruct (filter (fun p => key p = k) l) as [|p f] eqn:Hf;
      [simpl in Hpos; lia|].
    assert (Hin : p ∈ filter (fun p => key p = k) l)
      by (rewrite Hf; apply list_elem_of_here).
    apply list_elem_of_filter in Hin as [? ?]. eauto.
  - intros (p & Hin & Hk).
    assert (Hin' : p ∈ filter (fun p => key p = k) l)
      by (apply list_elem_of_filter; auto).
    destruct (filter (fun p => key p = k) l); [now apply elem_of_nil in Hin'|].
    simpl; lia.
Qed.

Lemma tally_elem_of l k c :
  (k, c) ∈ tally key l <-> c = occurrences key k l /\ 0 < c.
Proof.
  split.
  - intros Hin. apply (elem_of_get_Some _ _ _ (tally_NoDup l)) in Hin.
    rewrite tally_get in Hin.
    destruct (occurrences key k l); [discriminate|].
    injection Hin as <-. split; [reflexivity | lia].
  - intros [-> Hpos]. apply get_Some_elem_of. rewrite tally_get.
    destruct (occurrences key k l); [lia | reflexivity].
Qed.

Lemma tally_keys l k : k ∈ (tally key l).*1 <-> exists p, p ∈ l /\ key p = k.
Proof.
  rewrite <- occurrences_pos. split.
  - intros Hin. apply list_elem_of_fmap in Hin as ([k' c] & -> & Hin).
    apply tally_elem_of in Hin. simpl. lia.
  - intros Hpos. apply list_elem_of_fmap.
    exists (k, occurrences key k l). split; [reflexivity|].
    now apply tally_elem_of.
Qed.
End tally_facts.

Section tally_total.
Context {A K : Type} `{EqDecision K} (key : A -> K).

Lemma total_set (o : object K nat) (k : K) :
  sum_list (set o k (default 0 (get o k) + 1)).*2 = sum_list o.*2 + 1.
Proof.
  induction o as [|[k' c] o IH]; csimpl; [reflexivity|].
  destruct (decide (k' = k)) as [->|Hne]; csimpl; [lia|].
  rewrite IH. lia.
Qed.

Lemma tally_total (l : list A) : sum_list (tally key l).*2 = length l.
Proof.
  induction l as [|p l IH] using rev_ind; [reflexivity|].
  rewrite tally_snoc, total_set, IH, length_app. reflexivity.
Qed.
End tally_total.

(** ** [Array.prototype.sort] *)

Section sort_facts.
Context {A : Type} (cmp : A -> A -> number).

Lemma insert_Permutation x l : insert cmp x l ≡ₚ x :: l.
Proof.
  induction l as [|y l IH]; simpl; [reflexivity|].
  destruct (negative (cmp y x)); [|reflexivity].
  rewrite IH. apply perm_swap.
Qed.

Lemma sort_Permutation l : sort cmp l ≡ₚ l.
Proof.
  induction l as [|x l IH]; simpl; [reflexivity|].
  rewrite insert_Permutation. now constructor.
Qed.

(** On elements satisfying [P], the comparator decides a transitive
    relation [lt]. *)
Context (P : A -> Prop) (lt : A -> A -> Prop).
Hypothesis cmp_lt : forall x y, P x -> P y -> negative (cmp x y) = true <-> lt x y.
Hypothesis lt_trans : forall x y z, P x -> P y -> P z -> lt x y -> lt y z -> lt x z.

Lemma insert_sorted x l :
  P x -> Forall P l -> Forall (fun y => lt x y \/ lt y x) l ->
  StronglySorted lt l -> StronglySorted lt (insert cmp x l).
Proof.
  intros Px. induction l as [|y l IH]; intros HP Hcomp Hs; simpl.
  - repeat constructor.
  - apply Forall_cons in HP as [Py HP].
    apply Forall_cons in Hcomp as [Hxy Hcomp].
    apply StronglySorted_inv in Hs as [Hs Hy].
    destruct (negative (cmp y x)) eqn:Hc.
    + apply cmp_lt in Hc; [|assumption..].
      constructor; [now apply IH|].
      rewrite insert_Permutation. now constructor.
    + assert (Hlt : lt x y).
      { destruct Hxy as [?|Hyx]; [assumption|].
        apply cmp_lt in Hyx; [congruence | assumption..]. }
      constructor; [now constructor|].
      constructor; [assumption|].
      rewrite Forall_forall in Hy, HP |- *.
      intros z Hz. apply (lt_trans x y z); auto.
Qed.

Lemma sort_sorted l :
  Forall P l -> ForallOrdPairs (fun x y => lt x y \/ lt y x) l ->
  StronglySorted lt (sort cmp l).
Proof.
  intros HP Hpairs. induction Hpairs as [|x l Hx Hpairs IH]; simpl.
  - constructor.
  - apply Forall_cons in HP as [Px HP].
    apply insert_sorted; [assumption | | | now apply IH].
    + now rewrite sort_Permutation.
    + now rewrite sort_Permutation.
Qed.
End sort_facts.


(** ** [Object.entries] *)

Lemma filter_split {A} (P : A -> Prop)
    (dec : forall x, Decision (P x)) (dec' : forall x, Decision (~ P x)) (l : list A) :
  @filter _ _ list_filter P dec l ++ @filter _ _ list_filter (fun x => ~ P x) dec' l ≡ₚ l.
Proof.
  induction l as [|x l IH]; [reflexivity|].
  rewrite !filter_cons.
  destruct (decide (P x)), (decide (~ P x)); try tauto; simpl.
  - now constructor.
  - rewrite <- Permutation_middle. now constructor.
Qed.

Lemma entries_number_Permutation {V} (o : object number V) : entries_number o ≡ₚ o.
Proof.
  unfold entries_number. rewrite sort_Permutation. apply filter_split.
Qed.

Lemma entries_value_Permutation {V} (o : object value V) :
  DataVisualization.entries_value o ≡ₚ o.
Proof.
  unfold DataVisualization.entries_value. rewrite sort_Permutation.
  apply filter_split.
Qed.

(** ** Histograms *)

Lemma tempBins_Permutation l width :
  tempBins l width ≡ₚ
  (fun '(t, c) => {| temp := t; temp_count := c |}) <$>
    tally (fun p => String_number (binOf (Math_max (finite (1 # 10)) width) (temperature p))) l.
Proof.
  unfold tempBins. rewrite sort_Permutation, entries_number_Permutation.
  reflexivity.
Qed.

Lemma salBins_Permutation l width :
  salBins l width ≡ₚ
  (fun '(s, c) => {| sal := s; sal_count := c |}) <$>
    tally (fun p => String_number (binOf (Math_max (finite (1 # 10)) width) (salinity p))) l.
Proof.
  unfold salBins. rewrite sort_Permutation, entries_number_Permutation.
  reflexivity.
Qed.

Lemma sum_list_with_entries {K B} (mk : K * nat -> B) (count : B -> nat)
    (o : object K nat) :
  (forall kc, count (mk kc) = snd kc) ->
  sum_list_with count (mk <$> o) = sum_list o.*2.
Proof.
  intros Hmk. induction o as [|kc o IH]; csimpl; [reflexivity|].
  now rewrite Hmk, IH.
Qed.

(** Every record is counted once, whatever its field holds. *)
Lemma tempBins_total l width : sum_list_with temp_count (tempBins l width) = length l.
Proof.
  rewrite tempBins_Permutation.
  rewrite (sum_list_with_entries _ temp_count) by (now intros [? ?]).
  apply tally_total.
Qed.

Lemma salBins_total l width : sum_list_with sal_count (salBins l width) = length l.
Proof.
  rewrite salBins_Permutation.
  rewrite (sum_list_with_entries _ sal_count) by (now intros [? ?]).
  apply tally_total.
Qed.

(** ** Numbers *)

Lemma negative_sub a b : negative (sub (finite a) (finite b)) = true <-> (a < b)%Q.
Proof.
  simpl. rewrite negb_true_iff, <- not_true_iff_false, Qle_bool_iff.
  split; intros; lra.
Qed.


Lemma num_lt_trans x y z : num_lt x y -> num_lt y z -> num_lt x z.
Proof. destruct x, y, z; simpl; try tauto; lra. Qed.

Lemma canonical_trichotomy x y :
  canonical x -> canonical y -> x <> y -> num_lt x y \/ num_lt y x.
Proof.
  destruct x as [a|], y as [b|]; simpl; try tauto.
  intros Ha Hb Hne.
  destruct (Q_dec a b) as [[?|?]|Heq]; [now left | now right |].
  exfalso. apply Hne. f_equal. rewrite <- Ha, <- Hb. now apply Qred_complete.
Qed.


(** ** Sorted output of the counting loop *)

Lemma ForallOrdPairs_NoDup {A B} (f : A -> B) (R : A -> A -> Prop) (l : list A) :
  NoDup (f <$> l) ->
  (forall x y, x ∈ l -> y ∈ l -> f x <> f y -> R x y) ->
  ForallOrdPairs R l.
Proof.
  induction l as [|a l IH]; csimpl; intros Hnd HR; [constructor|].
  apply NoDup_cons in Hnd as [Hnotin Hnd].
  constructor.
  - apply Forall_forall. intros y Hy.
    apply HR; [apply list_elem_of_here | now apply list_elem_of_further |].
    intros Heq. apply Hnotin. rewrite Heq. apply list_elem_of_fmap. eauto.
  - apply IH; [assumption|].
    intros x y Hx Hy. apply HR; now apply list_elem_of_further.
Qed.

Section histogram_facts.
Context {A K B : Type} `{EqDecision K} (key : A -> K).
Context (entries : object K nat -> list (K * nat)) (mkBin : K * nat -> B).
Context (val : B -> number) (proj : K -> number).
Hypothesis entries_Permutation : forall o, entries o ≡ₚ o.
Hypothesis val_mk : forall kc, val (mkBin kc) = proj (fst kc).

Local Abbreviation cmp := (fun a b : B => sub (val a) (val b)).
Local Abbreviation out l := (sort cmp (mkBin <$> entries (tally key l))).

Lemma histogram_elem_of l x :
  x ∈ out l <-> exists k, x = mkBin (k, occurrences key k l) /\ 0 < occurrences key k l.
Proof.
  rewrite sort_Permutation, entries_Permutation.
  rewrite list_elem_of_fmap. split.
  - intros ([k c] & -> & Hin). apply tally_elem_of in Hin as [-> Hpos]. eauto.
  - intros (k & -> & Hpos). exists (k, occurrences key k l).
    split; [reflexivity|]. now apply tally_elem_of.
Qed.

Lemma histogram_sorted l :
  Forall (fun p => canonical (proj (key p))) l ->
  (forall p p', p ∈ l -> p' ∈ l -> proj (key p) = proj (key p') -> key p = key p') ->
  StronglySorted (fun x y => num_lt (val x) (val y)) (out l).
Proof.
  intros Hcan Hinj.
  assert (Hvals : forall x, x ∈ mkBin <$> entries (tally key l) -> canonical (val x)).
  { intros x Hx. rewrite entries_Permutation in Hx.
    apply list_elem_of_fmap in Hx as ([k c] & -> & Hin). rewrite val_mk. simpl.
    apply tally_elem_of in Hin as [-> Hpos].
    apply occurrences_pos in Hpos as (p & Hp & <-).
    rewrite Forall_forall in Hcan. now apply Hcan. }
  apply (sort_sorted cmp (fun x => canonical (val x))).
  - intros x y Hx Hy.
    destruct (val x) as [a|], (val y) as [b|]; simpl in Hx, Hy; try tauto.
    apply negative_sub.
  - intros x y z _ _ _. apply num_lt_trans.
  - now apply Forall_forall.
  - apply (ForallOrdPairs_NoDup val).
    + rewrite <- list_fmap_compose.
      rewrite (list_fmap_ext (val ∘ mkBin) (proj ∘ fst)) by (intros ? ? _; apply val_mk).
      rewrite list_fmap_compose, entries_Permutation.
      apply NoDup_fmap_2_strong; [|apply tally_NoDup].
      intros k k' Hk Hk' Heq.
      apply tally_keys in Hk as (p & Hp & <-).
      apply tally_keys in Hk' as (p' & Hp' & <-). now apply Hinj.
    + intros x y Hx Hy Hne. apply canonical_trichotomy; auto.
Qed.

End histogram_facts.

(** ** Buckets of numeric fields *)

Lemma filter_iff_Forall {A} (P1 P2 Q : A -> Prop)
    `{!forall x, Decision (P1 x), !forall x, Decision (P2 x)} (l : list A) :
  Forall Q l -> (forall x, Q x -> P1 x <-> P2 x) -> filter P1 l = filter P2 l.
Proof.
  intros HQ Hiff. induction HQ as [|x l Hx HQ IH]; [reflexivity|].
  rewrite !filter_cons, IH.
  destruct (decide (P1 x)), (decide (P2 x)); try reflexivity;
    exfalso; apply Hiff in Hx; tauto.
Qed.




Section numeric_histogram.
Context {B : Type} (field : Profile -> value) (mkBin : number * nat -> B).
Context (val : B -> number) (cnt : B -> nat).
Hypothesis val_mk : forall kc, val (mkBin kc) = fst kc.
Hypothesis cnt_mk : forall kc, cnt (mkBin kc) = snd kc.
Hypothesis mk_eta : forall x, mkBin (val x, cnt x) = x.
Context (w : Q) (w_nonzero : ~ w == 0).

Local Abbreviation key := (fun p : Profile => String_number (binOf (finite w) (field p))).
Local Abbreviation out l :=
  (sort (fun a b => sub (val a) (val b)) (mkBin <$> entries_number (tally key l))).






End numeric_histogram.

(** ** The histograms of the dashboard *)

Example tempBins_threeTemperatures :
  tempBins threeTemperatures (finite 1) =
  [ {| temp := finite 10; temp_count := 2 |}; {| temp := finite 11; temp_count := 1 |} ].
Proof. vm_compute. reflexivity. Qed.



Example tempBins_nullTemperature :
  tempBins [nullTemperature] (finite 1) = [ {| temp := finite 0; temp_count := 1 |} ].
Proof. vm_compute. reflexivity. Qed.

(** C8, as stated, fails: a record whose temperature is [null] is binned (in
    bucket 0), so the counts add up to more than the records with a non-null
    temperature. *)
Lemma tempBins_counts_null_field :
  sum_list_with temp_count (tempBins [nullTemperature] (finite 1)) <>
  length (filter (fun p => isNull (temperature p) = false) [nullTemperature]).
Proof. vm_compute. discriminate. Qed.

Lemma length_filter_isNull (field : Profile -> value) (l : list Profile) :
  length l =
  length (filter (fun p => isNull (field p) = false) l) +
  length (filter (fun p => isNull (field p) <> false) l).
Proof.
  rewrite <- length_app.
  now rewrite (filter_split (fun p => isNull (field p) = false)).
Qed.

(** C8, amended. The counts of the bins add up to the number of input
    records: the records with a non-null field and those whose field is null
    or missing alike. *)
Theorem computeHistogram_counts_every_record (l : list Profile)
    (tempBinWidth salBinWidth : number) :
  (sum_list_with temp_count (tempBins l tempBinWidth) = length l /\
   sum_list_with temp_count (tempBins l tempBinWidth) =
     length (filter (fun p => isNull (temperature p) = false) l) +
     length (filter (fun p => isNull (temperature p) <> false) l)) /\
  (sum_list_with sal_count (salBins l salBinWidth) = length l /\
   sum_list_with sal_count (salBins l salBinWidth) =
     length (filter (fun p => isNull (salinity p) = false) l) +
     length (filter (fun p => isNull (salinity p) <> false) l)).
Proof.
  rewrite <- !length_filter_isNull, tempBins_total, salBins_total. auto.
Qed.

(** ** Monthly groups *)

Lemma set_set {K V} `{EqDecision K} (o : object K V) k a b :
  set (set o k a) k b = set o k b.
Proof.
  induction o as [|[k' v'] o IH]; simpl.
  - destruct (decide (k = k)); congruence.
  - destruct (decide (k' = k)) as [->|Hne]; simpl.
    + destruct (decide (k = k)); congruence.
    + destruct (decide (k' = k)); [congruence | now rewrite IH].
Qed.

Section groupBy_facts.
Context (field : Profile -> value).
Implicit Types (l : list Profile) (k : string).

Lemma groupBy_snoc l p :
  groupBy field (l ++ [p]) =
  let g := default {| sum := finite 0; n := 0 |} (get (groupBy field l) (yearMonth p)) in
  set (groupBy field l) (yearMonth p)
      {| sum := add (sum g) (ToNumber (field p)); n := n g + 1 |}.
Proof.
  unfold groupBy at 1. rewrite foldl_app. fold (groupBy field l). cbn [foldl].
  destruct (get (groupBy field l) (yearMonth p)) as [g|] eqn:Hg;
    repeat first [ rewrite get_set_eq | rewrite set_set | rewrite Hg
                 | progress cbn [default from_option sum n] ];
    reflexivity.
Qed.

Lemma monthRecords_snoc k l p :
  monthRecords k (l ++ [p]) =
  monthRecords k l ++ (if decide (yearMonth p = k) then [p] else []).
Proof.
  unfold monthRecords. now rewrite filter_app.
Qed.

Lemma groupOf_snoc rs p :
  groupOf field (rs ++ [p]) =
  {| sum := add (sum (groupOf field rs)) (ToNumber (field p));
     n := n (groupOf field rs) + 1 |}.
Proof. unfold groupOf. rewrite foldl_app, length_app. reflexivity. Qed.

Lemma groupBy_get l k :
  get (groupBy field l) k =
  match monthRecords k l with
  | [] => None
  | _ :: _ => Some (groupOf field (monthRecords k l))
  end.
Proof.
  induction l as [|p l IH] using rev_ind; [reflexivity|].
  rewrite groupBy_snoc, monthRecords_snoc. cbv zeta.
  destruct (decide (yearMonth p = k)) as [->|Hne].
  - rewrite get_set_eq, IH, groupOf_snoc.
    match goal with
    | |- context [monthRecords ?k' l] => destruct (monthRecords k' l) eqn:Hm
    end; reflexivity.
  - rewrite get_set_ne by exact Hne. rewrite IH, app_nil_r. reflexivity.
Qed.

Lemma groupBy_NoDup l : NoDup (groupBy field l).*1.
Proof.
  induction l as [|p l IH] using rev_ind; [constructor|].
  rewrite groupBy_snoc. now apply NoDup_set.
Qed.

Lemma groupBy_elem_of l k g :
  (k, g) ∈ groupBy field l <->
  monthRecords k l <> [] /\ g = groupOf field (monthRecords k l).
Proof.
  split.
  - intros Hin. apply (elem_of_get_Some _ _ _ (groupBy_NoDup l)) in Hin.
    rewrite groupBy_get in Hin.
    destruct (monthRecords k l); [discriminate|].
    injection Hin as <-. split; [discriminate | reflexivity].
  - intros [Hne ->]. apply get_Some_elem_of. rewrite groupBy_get.
    destruct (monthRecords k l); [congruence | reflexivity].
Qed.
End groupBy_facts.

Lemma monthRecords_nonempty k l :
  monthRecords k l <> [] <-> exists p, p ∈ l /\ yearMonth p = k.
Proof.
  unfold monthRecords. split.
  - intros Hne. destruct (filter (fun p => yearMonth p = k) l) as [|p f] eqn:Hf;
      [congruence|].
    assert (Hin : p ∈ filter (fun p => yearMonth p = k) l)
      by (rewrite Hf; apply list_elem_of_here).
    apply list_elem_of_filter in Hin as [? ?]. eauto.
  - intros (p & Hin & Hk) Hnil.
    assert (Hin' : p ∈ filter (fun p => yearMonth p = k) l)
      by (apply list_elem_of_filter; auto).
    rewrite Hnil in Hin'. now apply elem_of_nil in Hin'.
Qed.

(** ** The sorted monthly series *)

Lemma negative_localeCompare a b :
  negative (localeCompare a b) = true <-> String_as_OT.lt a b.
Proof.
  unfold localeCompare, String_as_OT.lt.
  destruct (String_as_OT.compare a b); simpl; split; congruence.
Qed.

Lemma monthlySeries_Permutation field l :
  monthlySeries field l ≡ₚ
  (fun '(ym, v) => {| ym := ym; avg := div (sum v) (of_nat (n v)) |}) <$> groupBy field l.
Proof. unfold monthlySeries. apply sort_Permutation. Qed.

Lemma monthlySeries_elem_of field l r :
  r ∈ monthlySeries field l <->
  exists k, monthRecords k l <> [] /\
    r = {| ym := k; avg := meanOf field (monthRecords k l) |}.
Proof.
  rewrite monthlySeries_Permutation, list_elem_of_fmap. split.
  - intros ([k g] & -> & Hin). apply groupBy_elem_of in Hin as [Hne ->]. eauto.
  - intros (k & Hne & ->). exists (k, groupOf field (monthRecords k l)).
    split; [reflexivity|]. now apply groupBy_elem_of.
Qed.

Lemma monthlySeries_sorted field l :
  StronglySorted (fun a b => String_as_OT.lt (ym a) (ym b)) (monthlySeries field l).
Proof.
  unfold monthlySeries.
  apply (sort_sorted _ (fun _ => True)).
  - intros x y _ _. apply negative_localeCompare.
  - intros x y z _ _ _. apply String_as_OT.lt_strorder.
  - now apply Forall_true.
  - apply (ForallOrdPairs_NoDup ym).
    + rewrite <- list_fmap_compose.
      rewrite (list_fmap_ext _ fst (groupBy field l)) by (now intros ? [? ?] _).
      apply groupBy_NoDup.
    + intros x y _ _ Hne.
      destruct (String_as_OT.compare_spec (ym x) (ym y)); auto. congruence.
Qed.

(** ** The moving average *)

Lemma ToInteger_inject (q : Q) (z : Z) : q == inject_Z z -> ToInteger (finite q) = z.
Proof.
  unfold Qeq, ToInteger. simpl. intros Heq.
  rewrite Z.mul_1_r in Heq. rewrite Heq. now apply Z.quot_mul.
Qed.

Lemma Qle_bool_inject (a b : Z) : Qle_bool (inject_Z a) (inject_Z b) = true <-> (a <= b)%Z.
Proof. now rewrite Qle_bool_iff, <- Zle_Qle. Qed.

Lemma Math_max_floor (q : Q) :
  Math_max (finite 1) (Math_floor (finite q)) = finite (inject_Z (windowSize q)).
Proof.
  unfold windowSize. simpl. change 1%Q with (inject_Z 1).
  destruct (Qle_bool (inject_Z 1) (inject_Z (Qfloor q))) eqn:Hle.
  - apply Qle_bool_inject in Hle. now rewrite Z.max_r.
  - assert (~ (1 <= Qfloor q)%Z) by (rewrite <- Qle_bool_inject; congruence).
    rewrite Z.max_l by lia. reflexivity.
Qed.

Lemma half_floor (w : Z) :
  Math_floor (div (sub (finite (inject_Z w)) (finite 1)) (finite 2)) =
  finite (inject_Z (halfWidth w)).
Proof.
  unfold halfWidth, Math_floor, div, sub.
  change (Qeq_bool 2 0) with false. cbv iota. do 2 f_equal.
  rewrite (Zdiv_Qdiv (w - 1) 2). apply Qfloor_comp.
  unfold Qdiv. apply Qmult_comp; [|reflexivity].
  unfold Qeq. simpl. lia.
Qed.

Lemma start_index (i h : Z) :
  ToInteger (Math_max (finite 0) (sub (of_Z i) (finite (inject_Z h)))) = Z.max 0 (i - h).
Proof.
  assert (Heq : (inject_Z i - inject_Z h == inject_Z (i - h))%Q)
    by (unfold Qeq; simpl; lia).
  unfold of_Z. cbn [sub Math_max].
  destruct (Qle_bool 0 (inject_Z i - inject_Z h)) eqn:Hle.
  - rewrite (ToInteger_inject _ (i - h)) by exact Heq.
    apply Qle_bool_iff in Hle. rewrite Heq in Hle.
    change 0%Q with (inject_Z 0) in Hle. rewrite <- Zle_Qle in Hle. lia.
  - assert (Hnle : ~ (0 <= inject_Z i - inject_Z h)%Q)
      by (rewrite <- Qle_bool_iff; congruence).
    rewrite Heq in Hnle. change 0%Q with (inject_Z 0) in Hnle.
    rewrite <- Zle_Qle in Hnle. change (ToInteger (finite 0)) with 0%Z. lia.
Qed.

Lemma stop_index (len i h : Z) :
  ToInteger (add (Math_min (of_Z (len - 1)) (add (of_Z i) (finite (inject_Z h))))
                 (finite 1)) =
  (Z.min (len - 1) (i + h) + 1)%Z.
Proof.
  assert (Heq : (inject_Z i + inject_Z h == inject_Z (i + h))%Q)
    by (unfold Qeq; simpl; lia).
  unfold of_Z. cbn [add Math_min].
  destruct (Qle_bool (inject_Z (len - 1)) (inject_Z i + inject_Z h)) eqn:Hle;
    cbn [add].
  - rewrite (ToInteger_inject _ (len - 1 + 1)) by (unfold Qeq; simpl; lia).
    apply Qle_bool_iff in Hle. rewrite Heq in Hle. rewrite <- Zle_Qle in Hle. lia.
  - assert (Hnle : ~ (inject_Z (len - 1) <= inject_Z i + inject_Z h)%Q)
      by (rewrite <- Qle_bool_iff; congruence).
    rewrite Heq in Hnle. rewrite <- Zle_Qle in Hnle.
    rewrite (ToInteger_inject _ (i + h + 1)) by (unfold Qeq; simpl; lia).
    lia.
Qed.

Lemma slice_window {A} (series : list A) (lo hi : Z) :
  (0 <= lo <= hi)%Z -> (hi < Z.of_nat (length series))%Z ->
  slice series lo (hi + 1) = window series lo hi.
Proof.
  intros Hlo Hhi. unfold slice, window.
  destruct (Z.ltb_spec lo 0); [lia|].
  destruct (Z.ltb_spec (hi + 1) 0); [lia|].
  rewrite !Z.min_l by lia. do 2 f_equal. lia.
Qed.

Lemma movingAverage_lookup (series : list Row) (q : Q) (i : nat) (r : Row) :
  series !! i = Some r ->
  let h := halfWidth (windowSize q) in
  let lo := Z.max 0 (Z.of_nat i - h) in
  let hi := Z.min (Z.of_nat (length series) - 1) (Z.of_nat i + h) in
  movingAverage series (finite q) !! i =
  Some {| row := r; ma := meanAvg (window series lo hi) |}.
Proof.
  intros Hr h lo hi.
  assert (Hi : i < length series) by (eapply lookup_lt_Some; eassumption).
  assert (Hh : (0 <= h)%Z).
  { subst h. unfold halfWidth, windowSize. apply Z.div_pos; lia. }
  unfold movingAverage, mapi. rewrite list_lookup_imap, Hr.
  cbn [fmap option_fmap option_map].
  rewrite Math_max_floor, half_floor. fold h.
  rewrite start_index, stop_index. fold lo hi.
  rewrite slice_window by lia. reflexivity.
Qed.

Lemma movingAverage_rows (series : list Row) (w : number) :
  row <$> movingAverage series w = series.
Proof.
  unfold movingAverage, mapi. apply list_eq. intros i.
  rewrite list_lookup_fmap, list_lookup_imap.
  destruct (series !! i); reflexivity.
Qed.

Lemma window_length {A} (series : list A) (lo hi : Z) :
  (0 <= lo <= hi)%Z -> (hi < Z.of_nat (length series))%Z ->
  Z.of_nat (length (window series lo hi)) = (hi - lo + 1)%Z.
Proof.
  intros Hlo Hhi. unfold window. rewrite length_take, length_drop. lia.
Qed.

Lemma window_lookup {A} (series : list A) (lo hi : Z) (j : nat) :
  (0 <= lo)%Z -> (Z.of_nat j <= hi - lo)%Z ->
  window series lo hi !! j = series !! (Z.to_nat lo + j).
Proof.
  intros Hlo Hj. unfold window.
  rewrite lookup_take_lt by lia. apply lookup_drop.
Qed.




Lemma movingAverage_length (series : list Row) (w : number) :
  length (movingAverage series w) = length series.
Proof. rewrite <- (movingAverage_rows series w) at 2. now rewrite length_fmap. Qed.

Example timeSeriesTemp_threeMonths :
  (fun pt : Point => (ym pt, avg pt, String_number (ma pt))) <$>
    timeSeriesTemp threeMonths (finite 3) =
  [ ("2024-01", finite 5, finite 6); ("2024-02", finite 7, finite 7);
    ("2024-03", finite 9, finite 8) ].
Proof. vm_compute. reflexivity. Qed.

(** C4, as stated, fails for window size 1: with two months in the series
    ([n = 2 > w = 1]) the window at index 0 has [half + 1 = 1] element, which
    is the interior length [2 * half + 1 = 1] and not less. *)
Lemma boundary_window_not_shorter :
  let series := monthlySeries temperature twoMonths in
  let n := Z.of_nat (length series) in
  let w := windowSize 1 in
  let half := halfWidth w in
  (n > w)%Z /\
  Z.of_nat (length (window series (Z.max 0 (0 - half)) (Z.min (n - 1) (0 + half))))
    = (half + 1)%Z /\
  ~ (half + 1 < 2 * half + 1)%Z.
Proof. vm_compute. split_and!; [reflexivity | reflexivity | discriminate]. Qed.

(** C4, amended. With [w = max(1, floor(maWindow))] and
    [half = floor((w - 1) / 2)], the point at index [i] of the series carries
    the mean of the monthly averages over the inclusive slice
    [max(0, i - half) .. min(n - 1, i + half)], which lies within the series.
    When [n > w], the windows at index 0 and at index [n - 1] are
    [0 .. half] and [n - 1 - half .. n - 1], of length [half + 1]; that
    length is strictly less than [2 * half + 1] when [w >= 3], and equal to
    it (both are 1) when [w] is 1 or 2. *)
Theorem movingAverage_window (field : Profile -> value) (l : list Profile)
    (maWindow : Q) :
  let series := monthlySeries field l in
  let n := Z.of_nat (length series) in
  let w := windowSize maWindow in
  let half := halfWidth w in
  (forall (i : nat) (r : Row), series !! i = Some r ->
     let lo := Z.max 0 (Z.of_nat i - half) in
     let hi := Z.min (n - 1) (Z.of_nat i + half) in
     (0 <= lo <= hi)%Z /\ (hi < n)%Z /\
     Z.of_nat (length (window series lo hi)) = (hi - lo + 1)%Z /\
     (forall j : nat, (Z.of_nat j <= hi - lo)%Z ->
        window series lo hi !! j = series !! (Z.to_nat lo + j)) /\
     timeSeries field l (finite maWindow) !! i =
       Some {| row := r; ma := meanAvg (window series lo hi) |}) /\
  ((n > w)%Z ->
     (Z.max 0 (0 - half) = 0 /\ Z.min (n - 1) (0 + half) = half /\ half < n)%Z /\
     Z.of_nat (length (window series 0 half)) = (half + 1)%Z /\
     (Z.max 0 (n - 1 - half) = n - 1 - half /\ 0 <= n - 1 - half /\
      Z.min (n - 1) (n - 1 + half) = n - 1)%Z /\
     Z.of_nat (length (window series (n - 1 - half) (n - 1))) = (half + 1)%Z /\
     ((3 <= w)%Z -> (half + 1 < 2 * half + 1)%Z) /\
     ((w <= 2)%Z -> (half + 1 = 2 * half + 1)%Z)).
Proof.
  intros series n w half.
  assert (Hw : (1 <= w)%Z) by (subst w; unfold windowSize; lia).
  assert (Hh : (0 <= half /\ 2 * half + 1 <= w /\ w <= 2 * half + 2)%Z).
  { subst half. unfold halfWidth.
    pose proof (Z.div_mod (w - 1) 2 ltac:(lia)).
    pose proof (Z.mod_pos_bound (w - 1) 2 ltac:(lia)). lia. }
  split.
  - intros i r Hr lo hi.
    assert (Hi : i < length series) by (eapply lookup_lt_Some; eassumption).
    assert (Hlohi : (0 <= lo <= hi)%Z /\ (hi < n)%Z) by (subst lo hi n; lia).
    destruct Hlohi as [Hlo Hhi].
    split_and!; try lia.
    + apply window_length; lia.
    + intros j Hj. apply window_lookup; lia.
    + unfold timeSeries. apply movingAverage_lookup. exact Hr.
  - intros Hn. split_and!; try lia.
    + rewrite window_length by lia. lia.
    + rewrite window_length by lia. lia.
Qed.

Lemma movingAverage_window_witness :
  (Z.of_nat (length (monthlySeries temperature threeMonths)) > windowSize 2)%Z /\
  Z.of_nat (length (window (monthlySeries temperature threeMonths) 0
                      (halfWidth (windowSize 2)))) = (halfWidth (windowSize 2) + 1)%Z.
Proof.
  assert (H : (Z.of_nat (length (monthlySeries temperature threeMonths)) > windowSize 2)%Z)
    by (vm_compute; reflexivity).
  split; [exact H|].
  destruct (movingAverage_window temperature threeMonths 2) as [_ T].
  destruct (T H) as (_ & Hlen & _). exact Hlen.
Defined.



(** ** Year-month keys *)

Lemma digitChar_compare (a b : Z) :
  (0 <= a <= 9)%Z -> (0 <= b <= 9)%Z ->
  Ascii_as_OT.compare (digitChar a) (digitChar b) = (a ?= b)%Z.
Proof.
  intros Ha Hb.
  assert (Ha' : (a = 0 \/ a = 1 \/ a = 2 \/ a = 3 \/ a = 4 \/ a = 5 \/ a = 6 \/
                 a = 7 \/ a = 8 \/ a = 9)%Z) by lia.
  assert (Hb' : (b = 0 \/ b = 1 \/ b = 2 \/ b = 3 \/ b = 4 \/ b = 5 \/ b = 6 \/
                 b = 7 \/ b = 8 \/ b = 9)%Z) by lia.
  repeat (destruct Ha' as [->|Ha']); try subst a;
    repeat (destruct Hb' as [->|Hb']); try subst b; reflexivity.
Qed.

Lemma pretty_four_digits (y : Z) :
  (1000 <= y <= 9999)%Z ->
  pretty y =
  String (digitChar (y / 1000)) (String (digitChar (y / 100 mod 10))
    (String (digitChar (y / 10 mod 10)) (String (digitChar (y mod 10)) ""))).
Proof.
  intros Hy. destruct y as [|y|y]; try lia.
  unfold pretty, pretty_Z, pretty, pretty_positive, pretty, pretty_N.
  destruct (decide (N.pos y = 0%N)) as [|_]; [discriminate|].
  assert (Hy' : (1000 <= N.pos y <= 9999)%N) by lia.
  assert (H1 : (0 < N.pos y / 10)%N) by (apply N.div_str_pos; lia).
  assert (H2 : (0 < N.pos y / 10 / 10)%N).
  { rewrite N.Div0.div_div. apply N.div_str_pos; lia. }
  assert (H3 : (0 < N.pos y / 10 / 10 / 10)%N).
  { rewrite !N.Div0.div_div. apply N.div_str_pos; lia. }
  assert (H4 : (N.pos y / 10 / 10 / 10 / 10 = 0)%N).
  { rewrite !N.Div0.div_div. apply N.div_small; lia. }
  rewrite (pretty_N_go_step (N.pos y)) by lia.
  rewrite (pretty_N_go_step (N.pos y / 10)) by exact H1.
  rewrite (pretty_N_go_step (N.pos y / 10 / 10)) by exact H2.
  rewrite (pretty_N_go_step (N.pos y / 10 / 10 / 10)) by exact H3.
  rewrite H4, pretty_N_go_0.
  unfold digitChar.
  rewrite !N.Div0.div_div.
  change (10 * (10 * 10))%N with 1000%N. change (10 * 10)%N with 100%N.
  assert (E3 : (N.pos y / 1000 mod 10 = Z.to_N (Z.pos y / 1000))%N).
  { rewrite N.mod_small by (apply N.Div0.div_lt_upper_bound; lia).
    now rewrite Z2N.inj_div by lia. }
  assert (E2 : (N.pos y / 100 mod 10 = Z.to_N (Z.pos y / 100 mod 10))%N).
  { rewrite Z2N.inj_mod, Z2N.inj_div; try lia; try (apply Z.div_pos; lia).
    reflexivity. }
  assert (E1 : (N.pos y / 10 mod 10 = Z.to_N (Z.pos y / 10 mod 10))%N).
  { rewrite Z2N.inj_mod, Z2N.inj_div; try lia; try (apply Z.div_pos; lia).
    reflexivity. }
  assert (E0 : (N.pos y mod 10 = Z.to_N (Z.pos y mod 10))%N).
  { rewrite Z2N.inj_mod; try lia. reflexivity. }
  now rewrite E3, E2, E1, E0.
Qed.

Lemma padStart2_month (m : Z) :
  (1 <= m <= 12)%Z ->
  padStart2 (pretty m) = String (digitChar (m / 10)) (String (digitChar (m mod 10)) "").
Proof.
  intros Hm.
  assert (Hm' : (m = 1 \/ m = 2 \/ m = 3 \/ m = 4 \/ m = 5 \/ m = 6 \/ m = 7 \/
                 m = 8 \/ m = 9 \/ m = 10 \/ m = 11 \/ m = 12)%Z) by lia.
  repeat (destruct Hm' as [->|Hm']); try subst m; reflexivity.
Qed.

Lemma yearMonth_calendarDate (p : Profile) :
  calendarDate p ->
  yearMonth p =
  String (digitChar (year p / 1000)) (String (digitChar (year p / 100 mod 10))
    (String (digitChar (year p / 10 mod 10)) (String (digitChar (year p mod 10))
      (String "-"%char (String (digitChar (month p / 10))
        (String (digitChar (month p mod 10)) "")))))).
Proof.
  intros [Hy Hm]. unfold yearMonth.
  rewrite (pretty_four_digits _ Hy), (padStart2_month _ Hm). reflexivity.
Qed.

Ltac div_lia := Z.div_mod_to_equations; lia.

Lemma yearMonth_lt_chronological (p1 p2 : Profile) :
  calendarDate p1 -> calendarDate p2 ->
  String_as_OT.lt (yearMonth p1) (yearMonth p2) <-> chronological p1 p2.
Proof.
  intros H1 H2.
  rewrite (yearMonth_calendarDate p1 H1), (yearMonth_calendarDate p2 H2).
  destruct H1 as [Hy1 Hm1], H2 as [Hy2 Hm2].
  unfold String_as_OT.lt, chronological. cbn [String_as_OT.compare].
  rewrite !digitChar_compare by div_lia.
  change (Ascii_as_OT.compare "-"%char "-"%char) with Eq.
  repeat match goal with
         | |- context [(?a ?= ?b)%Z] => destruct (Z.compare_spec a b)
         end;
    (split; [ intros Hlt; try discriminate Hlt; div_lia
            | intros Hc; try reflexivity; exfalso; div_lia ]).
Qed.

(** ** The monthly series of the dashboard *)

Lemma monthlySeries_keys_NoDup field l : NoDup (ym <$> monthlySeries field l).
Proof.
  rewrite monthlySeries_Permutation, <- list_fmap_compose.
  rewrite (list_fmap_ext _ fst (groupBy field l)) by (now intros ? [? ?] _).
  apply groupBy_NoDup.
Qed.

Lemma monthlySeries_keys field l k :
  k ∈ ym <$> monthlySeries field l <-> exists p, p ∈ l /\ yearMonth p = k.
Proof.
  rewrite <- monthRecords_nonempty, list_elem_of_fmap. split.
  - intros (r & -> & Hr). apply monthlySeries_elem_of in Hr as (k & Hne & ->). exact Hne.
  - intros Hne. eexists. split; [|apply monthlySeries_elem_of; eauto]. reflexivity.
Qed.

Lemma monthlySeries_avg field l :
  Forall (fun r => avg r = meanOf field (monthRecords (ym r) l)) (monthlySeries field l).
Proof.
  apply Forall_forall. intros r Hr.
  apply monthlySeries_elem_of in Hr as (k & _ & ->). reflexivity.
Qed.

Example timeSeriesTemp_year_999_1000 :
  (fun pt : Point => ym pt) <$> timeSeriesTemp [december999; january1000] (finite 3) =
  [ "1000-01"; "999-12" ].
Proof. vm_compute. reflexivity. Qed.

(** C6, as stated, fails: the keys are in increasing lexicographic order,
    but that order is not chronological when the years do not have the same
    number of digits. January 1000 is listed before December 999. *)
Lemma yearMonth_order_not_chronological :
  chronological december999 january1000 /\
  (fun pt : Point => ym pt) <$> timeSeriesTemp [december999; january1000] (finite 3) =
  [ yearMonth january1000; yearMonth december999 ].
Proof. split; [left; reflexivity | vm_compute; reflexivity]. Qed.

(** C6, amended. The series has exactly one point per distinct year-month
    key present in the data (none for a month without records), each carrying
    the mean of the field over that month's records, and the keys are
    strictly increasing in lexicographic order. For records whose years have
    four digits and whose months are 1 to 12, the lexicographic order of the
    keys is the chronological order of the months. *)
Theorem computeMonthlySeries_points (field : Profile -> value) (l : list Profile)
    (maWindow : number) :
  let rows := row <$> timeSeries field l maWindow in
  NoDup (ym <$> rows) /\
  (forall k, k ∈ ym <$> rows <-> exists p, p ∈ l /\ yearMonth p = k) /\
  Forall (fun r => avg r = meanOf field (monthRecords (ym r) l)) rows /\
  StronglySorted (fun a b => String_as_OT.lt (ym a) (ym b)) rows /\
  (Forall calendarDate l ->
   forall p1 p2, p1 ∈ l -> p2 ∈ l ->
     String_as_OT.lt (yearMonth p1) (yearMonth p2) <-> chronological p1 p2).
Proof.
  intros rows. subst rows. unfold timeSeries. rewrite movingAverage_rows.
  split_and!.
  - apply monthlySeries_keys_NoDup.
  - apply monthlySeries_keys.
  - apply monthlySeries_avg.
  - apply monthlySeries_sorted.
  - intros Hdates p1 p2 H1 H2. rewrite Forall_forall in Hdates.
    apply yearMonth_lt_chronological; auto.
Qed.

Lemma computeMonthlySeries_points_witness :
  Forall calendarDate threeMonths /\
  (String_as_OT.lt (yearMonth january2024) (yearMonth february2024) <->
   chronological january2024 february2024).
Proof.
  assert (H : Forall calendarDate threeMonths)
    by (repeat constructor; vm_compute; discriminate).
  split; [exact H|].
  destruct (computeMonthlySeries_points temperature threeMonths (finite 3))
    as (_ & _ & _ & _ & T).
  apply (T H).
  - apply list_elem_of_here.
  - apply list_elem_of_further, list_elem_of_here.
Defined.

(** ** Records with a null or missing field *)






Example tempBins_missingTemperature :
  tempBins [missingTemperature] (finite 1) = [ {| temp := NaN; temp_count := 1 |} ].
Proof. vm_compute. reflexivity. Qed.



(** ** The cache key *)



Lemma clamp_inRange (lo hi x : Q) :
  (lo <= x <= hi)%Q -> Map.Qmax lo (Map.Qmin hi x) == x.
Proof.
  intros [Hlo Hhi]. unfold Map.Qmax, Map.Qmin.
  destruct (Qle_bool hi x) eqn:Hhx.
  - apply Qle_bool_iff in Hhx.
    destruct (Qle_bool lo hi) eqn:Hlh; [lra|].
    assert (~ (lo <= hi)%Q) by (rewrite <- Qle_bool_iff; congruence). lra.
  - destruct (Qle_bool lo x) eqn:Hlx; [reflexivity|].
    assert (~ (lo <= x)%Q) by (rewrite <- Qle_bool_iff; congruence). lra.
Qed.



Lemma occurs_app (c : Ascii.ascii) (s t : string) :
  occurs c (s +:+ t) = occurs c s || occurs c t.
Proof.
  induction s as [|c' s IH]; simpl; [reflexivity|].
  destruct (Ascii.eqb c c'); [reflexivity | exact IH].
Qed.

Lemma cacheKey_has_comma (b : Map.LatLngBounds) (filter : Map.Filter) :
  occurs "," (Map.cacheKey b filter) = true.
Proof.
  unfold Map.cacheKey. cbn [String.concat].
  rewrite !occurs_app. cbn [occurs Ascii.eqb]. simpl.
  now rewrite orb_true_r.
Qed.

Lemma cacheKey_not_fallback (b : Map.LatLngBounds) (filter : Map.Filter) :
  Map.cacheKey b filter <> "fallback".
Proof.
  intros Heq. pose proof (cacheKey_has_comma b filter) as H.
  rewrite Heq in H. discriminate H.
Qed.

(** ** One call of [fetchProfiles] *)

Section fetch_facts.
Context {Row : Type}.
Implicit Types (st : Map.state Row) (fetch : Map.request -> Map.response Row).
Implicit Types (b : Map.LatLngBounds) (filter : Map.Filter) (rows : list Row).

Lemma fetchProfiles_hit b filter fetch st rows :
  Map.cache st !! Map.cacheKey b filter = Some rows ->
  Map.fetchProfiles b filter fetch st =
  ({| Map.cache := Map.cache st; Map.profiles := rows; Map.loading := false |}, []).
Proof. intros Hhit. unfold Map.fetchProfiles. now rewrite Hhit. Qed.

Lemma fetchProfiles_failure b filter fetch st :
  Map.cache st !! Map.cacheKey b filter = None ->
  fetch (boundsRequest b filter) = Map.Failure ->
  Map.fetchProfiles b filter fetch st =
  ({| Map.cache := Map.cache st;
      Map.profiles := default (Map.profiles st) (Map.cache st !! "fallback");
      Map.loading := false |},
   [boundsRequest b filter]).
Proof.
  intros Hmiss Hfail. unfold Map.fetchProfiles, boundsRequest in *.
  rewrite Hmiss, Hfail. now destruct (Map.cache st !! "fallback").
Qed.

Lemma fetchProfiles_success b filter fetch st rows :
  Map.cache st !! Map.cacheKey b filter = None ->
  fetch (boundsRequest b filter) = Map.Results rows -> rows <> [] ->
  Map.fetchProfiles b filter fetch st =
  ({| Map.cache := <[Map.cacheKey b filter := rows]> (Map.cache st);
      Map.profiles := rows; Map.loading := false |},
   [boundsRequest b filter]).
Proof.
  intros Hmiss Hok Hne. unfold Map.fetchProfiles, boundsRequest in *.
  rewrite Hmiss, Hok. destruct rows; [congruence | reflexivity].
Qed.

Lemma fetchProfiles_keeps_entry b filter fetch st (k : string) rows :
  k <> "fallback" -> Map.cache st !! k = Some rows ->
  Map.cache (Map.fetchProfiles b filter fetch st).1 !! k = Some rows.
Proof.
  intros Hk Hin. unfold Map.fetchProfiles.
  destruct (Map.cache st !! Map.cacheKey b filter) as [hit|] eqn:Hkey; [exact Hin|].
  assert (Hne : Map.cacheKey b filter <> k) by congruence.
  destruct (fetch (Map.ProfilesInBounds (Map.boundsQuery b filter))) as [data|].
  - destruct (Map.isEmpty data).
    + destruct (fetch (Map.ProfilesFallback 200)); simpl.
      * rewrite lookup_insert_ne by congruence. now rewrite lookup_insert_ne.
      * now rewrite lookup_insert_ne.
    + simpl. now rewrite lookup_insert_ne.
  - now destruct (Map.cache st !! "fallback").
Qed.

Lemma run_cons (c : Map.call Row) calls st :
  Map.run (c :: calls) st =
  let r1 := Map.fetchProfiles (Map.bounds c) (Map.filters c) (Map.network c) st in
  let r2 := Map.run calls r1.1 in
  (r2.1, r1.2 ++ r2.2).
Proof.
  simpl.
  destruct (Map.fetchProfiles (Map.bounds c) (Map.filters c) (Map.network c) st)
    as [st1 reqs1]. simpl.
  now destruct (Map.run calls st1).
Qed.

Lemma run_keeps_entry (calls : list (Map.call Row)) st (k : string) rows :
  k <> "fallback" -> Map.cache st !! k = Some rows ->
  Map.cache (Map.run calls st).1 !! k = Some rows.
Proof.
  intros Hk. revert st. induction calls as [|c calls IH]; intros st Hin; [exact Hin|].
  rewrite run_cons. simpl. apply IH. now apply fetchProfiles_keeps_entry.
Qed.
End fetch_facts.

(** ** The bounds-keyed cache *)







(** C3, as stated, fails: two calls with the same key cause two requests
    when the first fetch fails (nothing is cached, the second call fetches
    again), and an empty answer makes the first call alone send two. *)
Lemma failed_fetch_is_repeated :
  length (Map.run [callAt viewA failing; callAt viewA (answering [1%Z])] Map.initial).2 = 2 /\
  length (Map.run [callAt viewA (emptyThenFallback [1%Z]);
                   callAt viewA (emptyThenFallback [1%Z])] Map.initial).2 = 2.
Proof. vm_compute. auto. Qed.

(** C3, amended. On a cache-key hit the call shows the stored rows at once,
    sends no request and leaves the cache as it is. An entry stored under a
    computed key is never removed or replaced, so once a call has missed the
    cache and received a non-empty answer, any later call with the same key,
    whatever calls come in between, is a hit: the two calls cause exactly one
    request. *)
Theorem cache_hit_suppresses_fetch {Row : Type} (c1 c2 : Map.call Row)
    (between : list (Map.call Row)) (st : Map.state Row) (rows : list Row) :
  (forall b filter fetch (st0 : Map.state Row) stored,
     Map.cache st0 !! Map.cacheKey b filter = Some stored ->
     Map.fetchProfiles b filter fetch st0 =
     ({| Map.cache := Map.cache st0; Map.profiles := stored; Map.loading := false |}, [])) /\
  (Map.cache st !! Map.cacheKey (Map.bounds c1) (Map.filters c1) = None ->
   Map.network c1 (boundsRequest (Map.bounds c1) (Map.filters c1)) = Map.Results rows ->
   rows <> [] ->
   Map.cacheKey (Map.bounds c2) (Map.filters c2) =
     Map.cacheKey (Map.bounds c1) (Map.filters c1) ->
   let r1 := Map.fetchProfiles (Map.bounds c1) (Map.filters c1) (Map.network c1) st in
   let r2 := Map.run between r1.1 in
   let r3 := Map.fetchProfiles (Map.bounds c2) (Map.filters c2) (Map.network c2) r2.1 in
   r1.2 = [boundsRequest (Map.bounds c1) (Map.filters c1)] /\
   r3.2 = [] /\
   Map.profiles r3.1 = rows /\
   length (r1.2 ++ r3.2) = 1).
Proof.
  split; [intros; now apply fetchProfiles_hit|].
  intros Hmiss Hok Hne Hkey r1 r2 r3.
  assert (E1 : r1 = ({| Map.cache := <[Map.cacheKey (Map.bounds c1) (Map.filters c1) := rows]>
                                       (Map.cache st);
                        Map.profiles := rows; Map.loading := false |},
                     [boundsRequest (Map.bounds c1) (Map.filters c1)]))
    by (now apply fetchProfiles_success).
  assert (Hin : Map.cache r2.1 !! Map.cacheKey (Map.bounds c2) (Map.filters c2) = Some rows).
  { subst r2. rewrite Hkey. apply run_keeps_entry; [apply cacheKey_not_fallback|].
    rewrite E1. simpl. apply lookup_insert_eq. }
  assert (E3 : r3 = ({| Map.cache := Map.cache r2.1; Map.profiles := rows;
                        Map.loading := false |}, []))
    by (now apply fetchProfiles_hit).
  rewrite E3, E1. simpl. auto.
Qed.

Lemma cache_hit_suppresses_fetch_witness :
  Map.cache (@Map.initial Z) !! Map.cacheKey viewA noFilter = None /\
  answering [1%Z] (boundsRequest viewA noFilter) = Map.Results [1%Z] /\
  Map.profiles
    (Map.fetchProfiles viewA noFilter failing
       (Map.run [callAt viewB failing]
          (Map.fetchProfiles viewA noFilter (answering [1%Z]) Map.initial).1).1).1 = [1%Z].
Proof.
  assert (Hmiss : Map.cache (@Map.initial Z) !! Map.cacheKey viewA noFilter = None)
    by reflexivity.
  assert (Hok : answering [1%Z] (boundsRequest viewA noFilter) = Map.Results [1%Z])
    by reflexivity.
  split_and!; try assumption.
  destruct (cache_hit_suppresses_fetch (callAt viewA (answering [1%Z]))
              (callAt viewA failing) [callAt viewB failing] Map.initial [1%Z])
    as [_ T].
  destruct (T Hmiss Hok ltac:(discriminate) eq_refl) as (_ & _ & Hrows & _).
  exact Hrows.
Defined.

(** ** The depth distribution *)

Example depthData_integer_depths :
  depthData [ profile (num 50) (num 5) (num 35) 1 2024;
              profile (num 10) (num 5) (num 35) 1 2024;
              profile (num 50) (num 5) (num 35) 1 2024 ] =
  [ {| depth_of := finite 10; depth_count := 1 |};
    {| depth_of := finite 50; depth_count := 2 |} ].
Proof. vm_compute. reflexivity. Qed.

Lemma depth_key_whole (p : Profile) :
  wholeDepth (depth p) -> String_value (depth p) = VNum (finite (inject_Z (metres p))).
Proof.
  unfold wholeDepth, metres. destruct (depth p) as [[q|]| |]; try tauto.
  intros Hq. simpl. do 2 f_equal.
  rewrite (Qred_complete _ _ Hq). apply inject_Z_Qred.
Qed.

Lemma parseInt_whole (z : Z) : parseInt (VNum (finite (inject_Z z))) = finite (inject_Z z).
Proof. simpl. now rewrite Z.quot_1_r. Qed.

(** X10. For depths that are whole numbers of metres the distribution is as the
    specification describes it: one entry per distinct depth of the input,
    carrying that depth and the number of records at it, in strictly
    ascending order of depth. *)
Lemma depthData_whole_depths (l : list Profile) :
  Forall (fun p => wholeDepth (depth p)) l ->
  (forall x, x ∈ depthData l <->
     exists p, p ∈ l /\ depth_of x = finite (inject_Z (metres p)) /\
       depth_count x = length (filter (fun p' => metres p' = metres p) l)) /\
  StronglySorted (fun x y => num_lt (depth_of x) (depth_of y)) (depthData l).
Proof.
  intros Hl. rewrite Forall_forall in Hl.
  pose (key := fun p : Profile => String_value (depth p)).
  pose (mkD := fun '(depth, count) =>
                 {| depth_of := parseInt depth; depth_count := count |}).
  assert (Hkey : forall p, p ∈ l -> key p = VNum (finite (inject_Z (metres p))))
    by (intros p Hp; apply depth_key_whole; auto).
  assert (Hocc : forall p, p ∈ l ->
            occurrences key (key p) l =
            length (filter (fun p' => metres p' = metres p) l)).
  { intros p Hp. unfold occurrences. f_equal.
    apply (filter_iff_Forall _ _ (fun p' => p' ∈ l)); [now apply Forall_forall|].
    intros p' Hp'. rewrite (Hkey p Hp), (Hkey p' Hp'). split.
    - now intros [= ->].
    - now intros ->. }
  split.
  - intros x.
    change (depthData l) with
      (sort (fun a b => sub (depth_of a) (depth_of b))
            (mkD <$> entries_value (tally key l))).
    rewrite (histogram_elem_of key entries_value mkD depth_of
               (@entries_value_Permutation nat)).
    split.
    + intros (k & -> & Hpos). apply occurrences_pos in Hpos as (p & Hp & <-).
      exists p. simpl. rewrite (Hocc p Hp), (Hkey p Hp), parseInt_whole. auto.
    + intros (p & Hp & Hd & Hc). exists (key p). split.
      * destruct x as [d c]. simpl in *. subst d c.
        rewrite (Hocc p Hp), (Hkey p Hp), parseInt_whole. reflexivity.
      * apply occurrences_pos. eauto.
  - change (depthData l) with
      (sort (fun a b => sub (depth_of a) (depth_of b))
            (mkD <$> entries_value (tally key l))).
    apply (histogram_sorted key entries_value mkD depth_of parseInt
             (@entries_value_Permutation nat)).
    + now intros [? ?].
    + apply Forall_forall. intros p Hp. rewrite (Hkey p Hp), parseInt_whole.
      simpl. apply inject_Z_Qred.
    + intros p p' Hp Hp'. rewrite (Hkey p Hp), (Hkey p' Hp'), !parseInt_whole.
      now intros [= ->].
Qed.

(** C9 at a fractional depth. The records are grouped by exact depth, but
    [parseInt] then keeps only the integer part of each key: a record at
    10.5 m yields an entry of depth 10, which is no depth of the input, and
    the depths 10.2 and 10.5 yield two entries that both carry depth 10. *)
Theorem depthData_fractional_depth :
  depthData [depth10_5] = [ {| depth_of := finite 10; depth_count := 1 |} ] /\
  depthDistribution [depth10_2; depth10_5] =
    [ (num (51 # 5), 1); (num (21 # 2), 1) ] /\
  depthData [depth10_2; depth10_5] =
    [ {| depth_of := finite 10; depth_count := 1 |};
      {| depth_of := finite 10; depth_count := 1 |} ].
Proof. vm_compute. auto. Qed.

(** * Further properties of the code *)

(** ** The query of the map *)

Ltac qle_cases :=
  repeat match goal with
  | |- context [Qle_bool ?a ?b] =>
      lazymatch a with context [Qle_bool _ _] => fail | _ => idtac end;
      lazymatch b with context [Qle_bool _ _] => fail | _ => idtac end;
      let H := fresh "H" in
      destruct (Qle_bool a b) eqn:H; cbv iota;
      [ apply Qle_bool_iff in H
      | assert (~ (a <= b)%Q) by (rewrite <- Qle_bool_iff; congruence); clear H ]
  end.

Lemma clamp_bounds (lo hi x : Q) :
  (lo <= hi)%Q -> (lo <= Map.Qmax lo (Map.Qmin hi x) <= hi)%Q.
Proof. intros Hlh. unfold Map.Qmax, Map.Qmin. qle_cases. all: lra. Qed.

Lemma clamp_mono (lo hi x y : Q) :
  (x <= y)%Q -> (Map.Qmax lo (Map.Qmin hi x) <= Map.Qmax lo (Map.Qmin hi y))%Q.
Proof. intros Hxy. unfold Map.Qmax, Map.Qmin. qle_cases. all: lra. Qed.

(** X1. Whatever bounds the map reports, the box sent to [/data/profiles]
    lies inside the valid ranges, latitudes in [-90, 90] and longitudes in
    [-180, 180]; clamping keeps south below north and west below east when
    the raw bounds are so ordered, and a view that is already inside the
    ranges is sent as it is. [explainView] asks about the same box and the
    same temperature window. *)
Theorem boundsQuery_valid (b : Map.LatLngBounds) (filter : Map.Filter) :
  let q := Map.boundsQuery b filter in
  let e := Map.explainQuery b filter in
  ((-90 <= Map.min_lat q <= 90 /\ -90 <= Map.max_lat q <= 90 /\
    -180 <= Map.min_lon q <= 180 /\ -180 <= Map.max_lon q <= 180) /\
   (Map.getSouth b <= Map.getNorth b -> Map.min_lat q <= Map.max_lat q) /\
   (Map.getWest b <= Map.getEast b -> Map.min_lon q <= Map.max_lon q) /\
   (inRange b ->
    Map.min_lat q == Map.getSouth b /\ Map.max_lat q == Map.getNorth b /\
    Map.min_lon q == Map.getWest b /\ Map.max_lon q == Map.getEast b))%Q /\
  (Map.explain_min_lat e = Map.min_lat q /\ Map.explain_max_lat e = Map.max_lat q /\
   Map.explain_min_lon e = Map.min_lon q /\ Map.explain_max_lon e = Map.max_lon q /\
   Map.explain_temp_min e = Map.temp_min q /\ Map.explain_temp_max e = Map.temp_max q).
Proof.
  intros q e. subst q e. split; [|split_and!; reflexivity].
  cbn [Map.boundsQuery Map.min_lat Map.max_lat Map.min_lon Map.max_lon].
  split_and!; try (apply clamp_bounds; lra); try (apply clamp_mono).
  intros (Hs & Hn & Hw & He). split_and!; now apply clamp_inRange.
Qed.

Lemma boundsQuery_valid_witness :
  (Map.getSouth wideView <= Map.getNorth wideView)%Q /\
  (Map.min_lat (Map.boundsQuery wideView noFilter) <=
   Map.max_lat (Map.boundsQuery wideView noFilter))%Q /\
  inRange viewA /\
  (Map.min_lat (Map.boundsQuery viewA noFilter) == Map.getSouth viewA)%Q.
Proof.
  assert (Hord : (Map.getSouth wideView <= Map.getNorth wideView)%Q)
    by (vm_compute; discriminate).
  assert (HA : inRange viewA) by (repeat split; vm_compute; discriminate).
  destruct (boundsQuery_valid wideView noFilter) as ((_ & T & _) & _).
  destruct (boundsQuery_valid viewA noFilter) as ((_ & _ & _ & U) & _).
  destruct (U HA) as (Hs & _).
  split_and!; [exact Hord | exact (T Hord) | exact HA | exact Hs].
Defined.

(** ** Requests and the cache *)

Section fetch_more.
Context {Row : Type}.
Implicit Types (st : Map.state Row) (fetch : Map.request -> Map.response Row).
Implicit Types (b : Map.LatLngBounds) (filter : Map.Filter) (rows : list Row).

Lemma fetchProfiles_empty b filter fetch st :
  Map.cache st !! Map.cacheKey b filter = None ->
  fetch (boundsRequest b filter) = Map.Results [] ->
  Map.fetchProfiles b filter fetch st =
  ({| Map.cache :=
        match fetch (Map.ProfilesFallback 200) with
        | Map.Results fallbackData =>
            <["fallback" := fallbackData]> (<[Map.cacheKey b filter := []]> (Map.cache st))
        | Map.Failure => <[Map.cacheKey b filter := []]> (Map.cache st)
        end;
      Map.profiles :=
        match fetch (Map.ProfilesFallback 200) with
        | Map.Results fallbackData => fallbackData
        | Map.Failure => []
        end;
      Map.loading := false |},
   [boundsRequest b filter; Map.ProfilesFallback 200]).
Proof.
  intros Hmiss Hok. unfold Map.fetchProfiles, boundsRequest in *.
  rewrite Hmiss, Hok. simpl. now destruct (fetch (Map.ProfilesFallback 200)).
Qed.


End fetch_more.

(** X2. One call of [fetchProfiles] sends no request when the key of the
    view is in the cache; otherwise it sends the bounds query and, exactly
    when that query answered with no rows, the unbounded [limit=200] query
    after it. A call never sends more than two requests. *)
Theorem fetchProfiles_requests {Row : Type} (b : Map.LatLngBounds)
    (filter : Map.Filter) (fetch : Map.request -> Map.response Row)
    (st : Map.state Row) :
  let reqs := (Map.fetchProfiles b filter fetch st).2 in
  length reqs <= 2 /\
  (reqs = [] <-> is_Some (Map.cache st !! Map.cacheKey b filter)) /\
  (reqs = [boundsRequest b filter; Map.ProfilesFallback 200] <->
     Map.cache st !! Map.cacheKey b filter = None /\
     fetch (boundsRequest b filter) = Map.Results []) /\
  (reqs = [boundsRequest b filter] <->
     Map.cache st !! Map.cacheKey b filter = None /\
     fetch (boundsRequest b filter) <> Map.Results []).
Proof.
  intros reqs. subst reqs.
  destruct (Map.cache st !! Map.cacheKey b filter) as [hit|] eqn:Hkey.
  - rewrite (fetchProfiles_hit b filter fetch st hit Hkey). simpl.
    split_and!; [lia | split; eauto | split; [discriminate | now intros [? _]]
                | split; [discriminate | now intros [? _]]].
  - destruct (fetch (boundsRequest b filter)) as [[|r rows]|] eqn:Hans.
    + rewrite (fetchProfiles_empty b filter fetch st Hkey Hans). simpl.
      split_and!; [lia | split; [discriminate | now intros [? ?]] | split; auto |].
      split; [discriminate | now intros [_ ?]].
    + rewrite (fetchProfiles_success b filter fetch st (r :: rows) Hkey Hans) by discriminate.
      simpl. split_and!; [lia | split; [discriminate | now intros [? ?]] | |].
      * split; [discriminate | now intros [_ ?]].
      * split; [intros _; split; [reflexivity | discriminate] | reflexivity].
    + rewrite (fetchProfiles_failure b filter fetch st Hkey Hans). simpl.
      split_and!; [lia | split; [discriminate | now intros [? ?]] | |].
      * split; [discriminate | now intros [_ ?]].
      * split; [intros _; split; [reflexivity | discriminate] | reflexivity].
Qed.





(** ** Markers *)

Lemma Qfloor_unique (x : Q) (z : Z) :
  (inject_Z z <= x < inject_Z z + 1)%Q <-> Qfloor x = z.
Proof.
  split.
  - intros [Hlo Hhi].
    assert (H1 : (z <= Qfloor x)%Z).
    { rewrite <- (Qfloor_Z z). now apply Qfloor_resp_le. }
    assert (H2 : (Qfloor x < z + 1)%Z).
    { destruct (Z_lt_le_dec (Qfloor x) (z + 1)) as [|Hge]; [assumption|].
      exfalso. rewrite Zle_Qle in Hge. rewrite inject_Z_plus in Hge.
      pose proof (Qfloor_le x). change (inject_Z 1) with 1%Q in Hge. lra. }
    lia.
  - intros <-. pose proof (Qfloor_le x). pose proof (Qlt_floor x) as Hlt.
    rewrite inject_Z_plus in Hlt. change (inject_Z 1) with 1%Q in Hlt. lra.
Qed.

Lemma ToNumber_numeric (v : value) : numeric v -> ToNumber v = finite (numberOf v).
Proof. destruct v as [[q|]| |]; simpl; tauto. Qed.

Lemma strictEq_round (T t : Q) :
  strictEq (Math_round (finite T)) (Math_round (finite t)) = true <->
  (inject_Z (nearest t) - (1 # 2) <= T < inject_Z (nearest t) + (1 # 2))%Q.
Proof.
  unfold Math_round, strictEq, nearest. rewrite Qeq_bool_iff, inject_Z_injective.
  rewrite <- Qfloor_unique. split; intros; lra.
Qed.

Lemma markerFilter_temperatureOnly (t : Q) (p : Profile) :
  Map.markerFilter (temperatureOnly t) p =
  strictEq (Math_round (ToNumber (temperature p))) (Math_round (finite t)).
Proof. unfold Map.markerFilter. simpl. now rewrite !andb_true_r. Qed.

(** X5. The temperature filter of the markers keeps the records whose
    temperature rounds to the same integer as the filter value [t]: those in
    the window of width one centred on the integer nearest to [t], lower end
    included and upper end excluded. When [t] is an integer this is the
    window [t - 0.5, t + 0.5] the query asks the server for, without its
    upper end; otherwise the two windows differ. *)
Theorem markerFilter_temperature_window (filter : Map.Filter) (p : Profile) (t : Q) :
  numeric (temperature p) ->
  let T := numberOf (temperature p) in
  let r := inject_Z (nearest t) in
  (Map.temperature filter = Some t -> Map.markerFilter filter p = true ->
   r - (1 # 2) <= T < r + (1 # 2))%Q /\
  (Map.markerFilter (temperatureOnly t) p = true <-> r - (1 # 2) <= T < r + (1 # 2))%Q /\
  (t == r -> forall b lo hi,
     Map.temp_min (Map.boundsQuery b (temperatureOnly t)) = Some lo ->
     Map.temp_max (Map.boundsQuery b (temperatureOnly t)) = Some hi ->
     (Map.markerFilter (temperatureOnly t) p = true <-> lo <= T < hi))%Q.
Proof.
  intros Hnum T r. subst T r. split_and!.
  - intros Ht Hpass. unfold Map.markerFilter in Hpass. rewrite Ht in Hpass.
    rewrite !andb_true_iff in Hpass. destruct Hpass as [[[[[[Hpass _] _] _] _] _] _].
    rewrite (ToNumber_numeric _ Hnum) in Hpass. now apply strictEq_round.
  - rewrite markerFilter_temperatureOnly, (ToNumber_numeric _ Hnum). apply strictEq_round.
  - intros Hint b lo hi [= <-] [= <-].
    rewrite markerFilter_temperatureOnly, (ToNumber_numeric _ Hnum), strictEq_round.
    split; intros; lra.
Qed.

Lemma markerFilter_temperature_window_witness :
  let p := located 1 (num 10) (num 20) (num (41 # 2)) in
  numeric (temperature p) /\
  Map.markerFilter (temperatureOnly 21) p = true /\
  (Map.markerFilter (temperatureOnly 20) p = true <-> (39 # 2 <= 41 # 2 < 41 # 2)%Q).
Proof.
  intros p.
  assert (Hnum : numeric (temperature p)) by exact I.
  destruct (markerFilter_temperature_window (temperatureOnly 21) p 21 Hnum) as (T & _ & _).
  destruct (markerFilter_temperature_window (temperatureOnly 20) p 20 Hnum) as (_ & _ & U).
  split_and!; [exact Hnum | reflexivity |].
  apply (U ltac:(vm_compute; reflexivity) viewA); reflexivity.
Defined.

Lemma geq_true (x : number) (m : Q) :
  geq x (finite m) = true <-> exists q, x = finite q /\ (m <= q)%Q.
Proof.
  destruct x as [q|]; simpl.
  - rewrite Qle_bool_iff. split; [eauto | now intros (? & [= <-] & ?)].
  - split; [discriminate | now intros (? & ? & ?)].
Qed.

Lemma leq_true (x : number) (m : Q) :
  leq x (finite m) = true <-> exists q, x = finite q /\ (q <= m)%Q.
Proof.
  destruct x as [q|]; simpl.
  - rewrite Qle_bool_iff. split; [eauto | now intros (? & [= <-] & ?)].
  - split; [discriminate | now intros (? & ? & ?)].
Qed.

(** X6. A record that passes the marker filter satisfies every bound that is
    set: its salinity is a number (a missing salinity fails any salinity
    bound, [null] counts as 0) within the salinity bounds, and its month and
    year lie within theirs. With no filter set every record passes. *)
Theorem markerFilter_bounds (filter : Map.Filter) (p : Profile) :
  (Map.markerFilter filter p = true ->
   (forall m, Map.salinityMin filter = Some m ->
      exists s, ToNumber (salinity p) = finite s /\ m <= s) /\
   (forall m, Map.salinityMax filter = Some m ->
      exists s, ToNumber (salinity p) = finite s /\ s <= m) /\
   (forall m, Map.monthMin filter = Some m -> m <= inject_Z (month p)) /\
   (forall m, Map.monthMax filter = Some m -> inject_Z (month p) <= m) /\
   (forall m, Map.yearMin filter = Some m -> m <= inject_Z (year p)) /\
   (forall m, Map.yearMax filter = Some m -> inject_Z (year p) <= m))%Q /\
  (salinity p = VUndefined ->
   is_Some (Map.salinityMin filter) \/ is_Some (Map.salinityMax filter) ->
   Map.markerFilter filter p = false) /\
  Map.markerFilter noFilter p = true.
Proof.
  split_and!; [| |reflexivity].
  - unfold Map.markerFilter. rewrite !andb_true_iff.
    intros [[[[[[_ H1] H2] H3] H4] H5] H6].
    split_and!; intros m Hm; rewrite Hm in *.
    + now apply geq_true.
    + now apply leq_true.
    + apply geq_true in H3 as (q & [= <-] & ?). assumption.
    + apply leq_true in H4 as (q & [= <-] & ?). assumption.
    + apply geq_true in H5 as (q & [= <-] & ?). assumption.
    + apply leq_true in H6 as (q & [= <-] & ?). assumption.
  - intros Hs Hset. unfold Map.markerFilter. rewrite Hs. simpl.
    destruct Hset as [[m Hm]|[m Hm]]; rewrite Hm.
    + now rewrite andb_false_r.
    + destruct (Map.salinityMin filter); now rewrite !andb_false_r.
Qed.

(** X7. The depth selected in the filter panel has no effect on the map:
    the cache key, the query sent to the server, the query of the
    explanation and the marker filter are the same whatever depth is
    selected. *)
Theorem depth_filter_is_ignored (d : option Q) (filter : Map.Filter)
    (b : Map.LatLngBounds) (p : Profile) :
  Map.cacheKey b (withDepth d filter) = Map.cacheKey b filter /\
  Map.boundsQuery b (withDepth d filter) = Map.boundsQuery b filter /\
  Map.explainQuery b (withDepth d filter) = Map.explainQuery b filter /\
  Map.markerFilter (withDepth d filter) p = Map.markerFilter filter p /\
  forall (Row : Type) (fetch : Map.request -> Map.response Row) (st : Map.state Row),
    Map.fetchProfiles b (withDepth d filter) fetch st = Map.fetchProfiles b filter fetch st.
Proof. split_and!; reflexivity. Qed.







(** ** Filters in the address bar *)

Lemma params_get_delete_eq (params : Map.URLSearchParams) (k : string) :
  Map.params_get (Map.params_delete params k) k = None.
Proof.
  unfold Map.params_get, Map.params_delete.
  induction params as [|[k' v'] params IH]; [reflexivity|]. simpl.
  destruct (bool_decide (k' = k)) eqn:Hk; simpl; [exact IH|]. now rewrite Hk.
Qed.

Lemma params_get_delete_ne (params : Map.URLSearchParams) (k k' : string) :
  k <> k' -> Map.params_get (Map.params_delete params k) k' = Map.params_get params k'.
Proof.
  intros Hne. unfold Map.params_get, Map.params_delete.
  induction params as [|[j v] params IH]; [reflexivity|]. simpl.
  destruct (bool_decide (j = k)) eqn:Hk; simpl.
  - apply bool_decide_eq_true in Hk. subst j.
    rewrite bool_decide_eq_false_2 by assumption. exact IH.
  - destruct (bool_decide (j = k')); [reflexivity | exact IH].
Qed.

Lemma params_get_set_eq (params : Map.URLSearchParams) (k v : string) :
  Map.params_get (Map.params_set params k v) k = Some v.
Proof.
  unfold Map.params_get.
  induction params as [|[j w] params IH]; simpl.
  - now rewrite bool_decide_eq_true_2.
  - destruct (decide (j = k)); simpl.
    + now rewrite bool_decide_eq_true_2.
    + now rewrite bool_decide_eq_false_2.
Qed.

Lemma params_get_set_ne (params : Map.URLSearchParams) (k k' v : string) :
  k <> k' -> Map.params_get (Map.params_set params k v) k' = Map.params_get params k'.
Proof.
  intros Hne.
  induction params as [|[j w] params IH]; simpl.
  - unfold Map.params_get. simpl. now rewrite bool_decide_eq_false_2.
  - destruct (decide (j = k)) as [->|Hj].
    + unfold Map.params_get. simpl. rewrite !bool_decide_eq_false_2 by assumption.
      apply (params_get_delete_ne params k k' Hne).
    + unfold Map.params_get in *. simpl.
      destruct (bool_decide (j = k')); [reflexivity | exact IH].
Qed.

Section url_facts.
Context (String_ : Q -> string) (Number : string -> number).

Lemma getNum_setOrDel_eq (params : Map.URLSearchParams) (k : string) (v : option Q) :
  roundTrips String_ Number v ->
  Map.getNum Number (Map.setOrDel String_ params k v) k = v.
Proof.
  unfold Map.getNum, Map.setOrDel. destruct v as [x|]; simpl.
  - intros [Hne Hrt]. rewrite params_get_set_eq.
    destruct (decide (String_ x = "")); [contradiction|]. now rewrite Hrt.
  - intros _. now rewrite params_get_delete_eq.
Qed.

Lemma params_get_setOrDel_ne (params : Map.URLSearchParams) (k k' : string) (v : option Q) :
  k <> k' ->
  Map.params_get (Map.setOrDel String_ params k v) k' = Map.params_get params k'.
Proof.
  intros Hne. unfold Map.setOrDel. destruct v.
  - now apply params_get_set_ne.
  - now apply params_get_delete_ne.
Qed.

Lemma getNum_setOrDel_ne (params : Map.URLSearchParams) (k k' : string) (v : option Q) :
  k <> k' ->
  Map.getNum Number (Map.setOrDel String_ params k v) k' = Map.getNum Number params k'.
Proof. intros Hne. unfold Map.getNum. now rewrite params_get_setOrDel_ne. Qed.
End url_facts.

(** X9. The filter survives a reload, except for the depth. After the
    persist effect has written a filter to the address bar, the mount effect
    reads back the same temperature, salinity, month and year entries,
    provided the text of each value converts back to the value; the depth it
    reads is the one the address already carried, because the persist effect
    never writes it. Parameters other than the seven it writes are left as
    they were. *)
Theorem filter_survives_reload (String_ : Q -> string) (Number : string -> number)
    (filter prev : Map.Filter) (params : Map.URLSearchParams) :
  Forall (roundTrips String_ Number) (persisted filter) ->
  let params' := Map.persistFilter String_ params filter in
  Map.loadFilter Number params' prev =
    withDepth (Map.getNum Number params "depth") filter /\
  (forall k, k ∉ persistedKeys -> Map.params_get params' k = Map.params_get params k).
Proof.
  intros Hrt params'. subst params'. unfold persisted in Hrt.
  repeat match goal with H : Forall _ (_ :: _) |- _ => inversion H; clear H; subst end.
  split.
  - unfold Map.loadFilter, Map.persistFilter, withDepth. cbv zeta.
    f_equal;
      repeat first
        [ rewrite getNum_setOrDel_eq by assumption
        | rewrite getNum_setOrDel_ne by discriminate ];
      reflexivity.
  - intros k Hk. unfold persistedKeys in Hk.
    rewrite !not_elem_of_cons in Hk. destruct Hk as (? & ? & ? & ? & ? & ? & ? & _).
    unfold Map.persistFilter. cbv zeta.
    rewrite !params_get_setOrDel_ne by congruence. reflexivity.
Qed.

Lemma filter_survives_reload_witness :
  let filter := {| Map.depth := Some 100%Q; Map.temperature := Some (41 # 2)%Q;
                   Map.salinityMin := Some 33%Q; Map.salinityMax := None;
                   Map.monthMin := Some 1%Q; Map.monthMax := Some 12%Q;
                   Map.yearMin := None; Map.yearMax := Some 2024%Q |} in
  let params := [ ("depth", "50"); ("sal_max", "36"); ("zoom", "3") ] in
  Forall (roundTrips Map.Number_toString Number_of_decimal) (persisted filter) /\
  Map.loadFilter Number_of_decimal
    (Map.persistFilter Map.Number_toString params filter) noFilter =
  withDepth (Some 50%Q) filter.
Proof.
  intros filter params.
  assert (H : Forall (roundTrips Map.Number_toString Number_of_decimal) (persisted filter)).
  { unfold persisted. repeat apply Forall_cons_2; try apply Forall_nil_2;
      vm_compute; try exact I; (split; [discriminate | reflexivity]). }
  split; [exact H|].
  destruct (filter_survives_reload Map.Number_toString Number_of_decimal
              filter noFilter params H) as [T _].
  exact T.
Defined.

(** ** The depth chart and the histograms *)

Lemma depthData_whole_depths_witness :
  let l := [ profile (num 50) (num 5) (num 35) 1 2024;
             profile (num 10) (num 5) (num 35) 1 2024;
             profile (num 50) (num 5) (num 35) 1 2024 ] in
  Forall (fun p => wholeDepth (depth p)) l /\
  StronglySorted (fun x y => num_lt (depth_of x) (depth_of y)) (depthData l).
Proof.
  intros l.
  assert (H : Forall (fun p => wholeDepth (depth p)) l)
    by (repeat constructor; vm_compute; reflexivity).
  split; [exact H|].
  destruct (depthData_whole_depths l H) as [_ T]. exact T.
Defined.

Lemma depthData_Permutation l :
  depthData l ≡ₚ
  (fun '(depth, count) => {| depth_of := parseInt depth; depth_count := count |}) <$>
    tally (fun p => String_value (depth p)) l.
Proof.
  unfold depthData. rewrite sort_Permutation, entries_value_Permutation. reflexivity.
Qed.

Lemma sum_list_with_ge_length {A} (f : A -> nat) (l : list A) :
  Forall (fun x => 1 <= f x) l -> length l <= sum_list_with f l.
Proof. induction 1 as [|x l Hx _ IH]; simpl; lia. Qed.

(** X11. The depth chart counts every record exactly once, whatever its
    depth holds: the counts of its entries add up to the number of records,
    every entry counts at least one record, there are no more entries than
    records, and the chart is empty only for an empty input. *)
Theorem depthData_counts_every_record (l : list Profile) :
  sum_list_with depth_count (depthData l) = length l /\
  Forall (fun x => 1 <= depth_count x) (depthData l) /\
  length (depthData l) <= length l /\
  (depthData l = [] <-> l = []).
Proof.
  assert (Hsum : sum_list_with depth_count (depthData l) = length l).
  { rewrite depthData_Permutation.
    rewrite (sum_list_with_entries _ depth_count) by (now intros [? ?]).
    apply tally_total. }
  assert (Hpos : Forall (fun x => 1 <= depth_count x) (depthData l)).
  { apply Forall_forall. intros x Hx. rewrite depthData_Permutation in Hx.
    apply list_elem_of_fmap in Hx as ([k c] & -> & Hin).
    apply tally_elem_of in Hin as [-> Hocc]. simpl. lia. }
  pose proof (sum_list_with_ge_length depth_count _ Hpos) as Hlen.
  split_and!; [exact Hsum | exact Hpos | lia |].
  split.
  - intros Hnil. rewrite Hnil in Hsum. simpl in Hsum.
    symmetry in Hsum. now apply length_zero_iff_nil.
  - now intros ->.
Qed.

Section bucket_facts.
Context (w : Q) (w_pos : (0 < w)%Q).


End bucket_facts.

Section bin_ranges.
Context {B : Type} (field : Profile -> value) (mkBin : number * nat -> B).
Context (val : B -> number) (cnt : B -> nat).
Hypothesis val_mk : forall kc, val (mkBin kc) = fst kc.
Hypothesis cnt_mk : forall kc, cnt (mkBin kc) = snd kc.
Hypothesis mk_eta : forall x, mkBin (val x, cnt x) = x.
Context (w : Q) (w_pos : (0 < w)%Q).

Local Abbreviation out l :=
  (sort (fun a b => sub (val a) (val b))
        (mkBin <$> entries_number
           (tally (fun p : Profile => String_number (binOf (finite w) (field p))) l))).


End bin_ranges.



(** ** The moving average *)

Lemma halfWidth_bounds (w : Z) :
  (1 <= w -> 0 <= halfWidth w /\ 2 * halfWidth w + 1 <= w <= 2 * halfWidth w + 2)%Z.
Proof. unfold halfWidth. intros Hw. Z.div_mod_to_equations. lia. Qed.

Lemma windowSize_inject (z : Z) : (1 <= z)%Z -> windowSize (inject_Z z) = z.
Proof. intros Hz. unfold windowSize. rewrite Qfloor_Z. lia. Qed.

Lemma movingAverage_half (series : list Row) (q q' : Q) :
  halfWidth (windowSize q) = halfWidth (windowSize q') ->
  movingAverage series (finite q) = movingAverage series (finite q').
Proof.
  intros Hh. apply list_eq. intros i.
  destruct (series !! i) as [r|] eqn:Hr.
  - rewrite !(movingAverage_lookup series _ i r Hr). now rewrite Hh.
  - assert (Hi : length series <= i) by now apply lookup_ge_None.
    rewrite !(proj2 (lookup_ge_None _ _)); [reflexivity | |];
      now rewrite movingAverage_length.
Qed.

(** X13. The smoothing only ever uses an odd window: with
    [w = max(1, floor(maWindow))] the series is the one the largest odd size
    not above [w] gives, so an even size [2k] smooths exactly as [2k - 1]
    does, and two settings with the same [floor((w - 1) / 2)] give the same
    series. *)
Theorem movingAverage_odd_window (field : Profile -> value) (l : list Profile)
    (maWindow maWindow' : Q) :
  let w := windowSize maWindow in
  let odd := (2 * halfWidth w + 1)%Z in
  (odd <= w <= odd + 1)%Z /\
  timeSeries field l (finite maWindow) = timeSeries field l (finite (inject_Z odd)) /\
  (halfWidth (windowSize maWindow') = halfWidth w ->
   timeSeries field l (finite maWindow') = timeSeries field l (finite maWindow)) /\
  (forall k : Z, (1 <= k)%Z ->
     timeSeries field l (finite (inject_Z (2 * k))) =
     timeSeries field l (finite (inject_Z (2 * k - 1)))).
Proof.
  intros w odd.
  assert (Hw : (1 <= w)%Z) by (subst w; unfold windowSize; lia).
  pose proof (halfWidth_bounds w Hw) as Hh.
  split_and!; try (subst odd; lia).
  - unfold timeSeries. apply movingAverage_half. fold w.
    rewrite windowSize_inject by (subst odd; lia).
    subst odd. unfold halfWidth. Z.div_mod_to_equations. lia.
  - intros Heq. unfold timeSeries. now apply movingAverage_half.
  - intros k Hk. unfold timeSeries. apply movingAverage_half.
    rewrite !windowSize_inject by lia. unfold halfWidth. Z.div_mod_to_equations. lia.
Qed.

Lemma window_all {A} (series : list A) :
  window series 0 (Z.of_nat (length series) - 1) = series.
Proof.
  unfold window. change (Z.to_nat 0) with 0%nat. rewrite drop_0.
  apply take_ge. lia.
Qed.

(** X14. A window that reaches over the whole series flattens it: when
    [half = floor((w - 1) / 2)] is at least [n - 1] for a series of [n]
    months, the slice at every index is the whole series and every point
    carries the mean of all monthly averages. *)
Theorem movingAverage_wide_window (field : Profile -> value) (l : list Profile)
    (maWindow : Q) :
  let series := monthlySeries field l in
  (Z.of_nat (length series) - 1 <= halfWidth (windowSize maWindow))%Z ->
  Forall (fun pt => ma pt = meanAvg series) (timeSeries field l (finite maWindow)) /\
  (forall maWindow' : Q,
     (Z.of_nat (length series) - 1 <= halfWidth (windowSize maWindow'))%Z ->
     timeSeries field l (finite maWindow') = timeSeries field l (finite maWindow)).
Proof.
  intros series Hwide.
  assert (Hall : forall q, (Z.of_nat (length series) - 1 <= halfWidth (windowSize q))%Z ->
            timeSeries field l (finite q) =
            (fun r => {| row := r; ma := meanAvg series |}) <$> series).
  { intros q Hq. unfold timeSeries. fold series. apply list_eq. intros i.
    rewrite list_lookup_fmap.
    destruct (series !! i) as [r|] eqn:Hr.
    - rewrite (movingAverage_lookup series q i r Hr).
      assert (Hi : i < length series) by (eapply lookup_lt_Some; eassumption).
      rewrite Z.max_l by lia. rewrite Z.min_l by lia.
      now rewrite window_all.
    - apply lookup_ge_None. rewrite movingAverage_length. now apply lookup_ge_None. }
  split.
  - rewrite (Hall maWindow Hwide). apply Forall_fmap. now apply Forall_true.
  - intros q Hq. now rewrite (Hall q Hq), (Hall maWindow Hwide).
Qed.

Lemma movingAverage_wide_window_witness :
  (Z.of_nat (length (monthlySeries temperature threeMonths)) - 1
     <= halfWidth (windowSize 5))%Z /\
  Forall (fun pt => ma pt = meanAvg (monthlySeries temperature threeMonths))
    (timeSeriesTemp threeMonths (finite 5)).
Proof.
  assert (H : (Z.of_nat (length (monthlySeries temperature threeMonths)) - 1
                 <= halfWidth (windowSize 5))%Z) by (vm_compute; discriminate).
  split; [exact H|].
  destruct (movingAverage_wide_window temperature threeMonths 5 H) as [T _]. exact T.
Defined.

(** ** Averages *)






(** ** The chart controls *)



(** ** The filters of the dashboard *)

Lemma depthIs_atDepth d p : Filters.depthIs d p = true <-> atDepth d p.
Proof.
  unfold Filters.depthIs, atDepth. destruct (depth p) as [[q|]| |], d as [dq|]; simpl; split;
    try discriminate; try (now intros (? & ? & [= ] & _)); try (now intros (? & ? & _ & [= ] & _)).
  - intros Heq. apply Qeq_bool_iff in Heq. eauto.
  - intros (q' & dq' & [= <-] & [= <-] & Heq). now apply Qeq_bool_iff.
Qed.

Lemma filterThrowing_Some {A} (f : A -> option bool) (l r : list A) :
  Filters.filterThrowing f l = Some r ->
  sublist r l /\ Forall (fun a => f a = Some true) r /\
  (forall a, a ∈ l -> f a = Some true -> a ∈ r).
Proof.
  revert r. induction l as [|a l IH]; intros r; csimpl.
  - intros [= <-]. split_and!; [constructor | constructor | auto].
  - destruct (f a) as [keep|] eqn:Hfa; csimpl; [|discriminate].
    destruct (Filters.filterThrowing f l) as [rest|]; csimpl; [|discriminate].
    intros [= <-]. destruct (IH rest eq_refl) as (Hsub & Hall & Hin).
    destruct keep.
    + split_and!; [now constructor | now constructor |].
      intros b Hb Hfb. apply elem_of_cons in Hb as [->|Hb];
        [apply list_elem_of_here | apply list_elem_of_further; auto].
    + split_and!; [now constructor | assumption |].
      intros b Hb Hfb. apply elem_of_cons in Hb as [->|Hb]; [congruence | auto].
Qed.

Lemma filterThrowing_fixed {A} (f : A -> option bool) (r : list A) :
  Forall (fun a => f a = Some true) r -> Filters.filterThrowing f r = Some r.
Proof.
  induction 1 as [|a r Ha _ IH]; csimpl; [reflexivity|]. now rewrite Ha, IH.
Qed.

Lemma filter_sublist {A} (f : A -> bool) (l : list A) : sublist (List.filter f l) l.
Proof.
  induction l as [|a l IH]; simpl; [constructor|].
  destruct (f a); now constructor.
Qed.

Lemma filter_fixed {A} (f : A -> bool) (l : list A) :
  Forall (fun a => f a = true) l -> List.filter f l = l.
Proof. induction 1 as [|a l Ha _ IH]; simpl; [reflexivity|]. now rewrite Ha, IH. Qed.

Lemma Forall_filter_true {A} (f : A -> bool) (l : list A) :
  Forall (fun a => f a = true) (List.filter f l).
Proof.
  apply Forall_forall. intros a Ha. apply list_elem_of_In, List.filter_In in Ha. tauto.
Qed.

Lemma filterProfiles_Some (profiles filtered : list Profile) (searchTerm : string)
    (selectedDepth : option number) :
  Filters.filterProfiles profiles searchTerm selectedDepth = Some filtered ->
  sublist filtered profiles /\
  (forall d, selectedDepth = Some d -> Forall (atDepth d) filtered) /\
  Filters.filterProfiles filtered searchTerm selectedDepth = Some filtered.
Proof.
  unfold Filters.filterProfiles.
  destruct (decide (searchTerm = "")) as [->|Hterm]; csimpl.
  - intros [= <-]. destruct selectedDepth as [d|].
    + split_and!.
      * apply filter_sublist.
      * intros ? [= <-]. eapply Forall_impl; [apply Forall_filter_true|].
        intros p. apply depthIs_atDepth.
      * now rewrite (filter_fixed _ _ (Forall_filter_true _ _)).
    + split_and!; [reflexivity | discriminate | reflexivity].
  - destruct (Filters.filterThrowing (Filters.searchMatches searchTerm) profiles)
      as [found|] eqn:Hfound; csimpl; [|discriminate].
    intros [= <-]. apply filterThrowing_Some in Hfound as (Hsub & Hall & _).
    destruct selectedDepth as [d|].
    + assert (Hall' : Forall (fun a => Filters.searchMatches searchTerm a = Some true)
                        (List.filter (Filters.depthIs d) found)).
      { apply Forall_forall. intros p Hp. apply list_elem_of_In, List.filter_In in Hp.
        rewrite Forall_forall in Hall. apply Hall. now apply list_elem_of_In. }
      split_and!.
      * etransitivity; [apply filter_sublist | exact Hsub].
      * intros ? [= <-]. eapply Forall_impl; [apply Forall_filter_true|].
        intros p. apply depthIs_atDepth.
      * rewrite (filterThrowing_fixed _ _ Hall'). csimpl.
        now rewrite (filter_fixed _ _ (Forall_filter_true _ _)).
    + split_and!; [exact Hsub | discriminate |].
      now rewrite (filterThrowing_fixed _ _ Hall).
Qed.


(** X17. What [filterProfiles] hands to the charts is a sub-list of the
    loaded records, in their order; with a depth selected every record kept
    has exactly that depth (a record whose depth is [null] or missing is
    dropped), and filtering the result again changes nothing. With an empty
    search term the search is skipped: the call cannot throw, and without a
    selected depth it returns the records as they are. *)
Theorem filterProfiles_result (profiles filtered : list Profile) (searchTerm : string)
    (selectedDepth : option number) :
  (Filters.filterProfiles profiles searchTerm selectedDepth = Some filtered ->
   sublist filtered profiles /\
   (forall d, selectedDepth = Some d -> Forall (atDepth d) filtered) /\
   Filters.filterProfiles filtered searchTerm selectedDepth = Some filtered) /\
  is_Some (Filters.filterProfiles profiles "" selectedDepth) /\
  Filters.filterProfiles profiles "" None = Some profiles.
Proof.
  split_and!; [apply filterProfiles_Some | | reflexivity].
  unfold Filters.filterProfiles; simpl; eauto.
Qed.

Lemma filterProfiles_result_witness :
  let profiles := [ profile (num 10) (num 5) (num 35) 1 2024;
                    profile (num 50) (num 5) (num 35) 1 2024 ] in
  Filters.filterProfiles profiles "0" (Some (finite 50)) =
    Some [ profile (num 50) (num 5) (num 35) 1 2024 ] /\
  Forall (atDepth (finite 50)) [ profile (num 50) (num 5) (num 35) 1 2024 ].
Proof.
  intros profiles.
  assert (H : Filters.filterProfiles profiles "0" (Some (finite 50)) =
              Some [ profile (num 50) (num 5) (num 35) 1 2024 ])
    by (vm_compute; reflexivity).
  split; [exact H|].
  destruct (filterProfiles_result profiles [ profile (num 50) (num 5) (num 35) 1 2024 ]
              "0" (Some (finite 50))) as [T _].
  destruct (T H) as (_ & U & _). exact (U (finite 50) eq_refl).
Defined.

Lemma filterThrowing_None {A} (f : A -> option bool) (l : list A) (a : A) :
  a ∈ l -> f a = None -> Filters.filterThrowing f l = None.
Proof.
  intros Ha Hfa. induction l as [|b l IH]; [inversion Ha|].
  apply elem_of_cons in Ha as [<-|Ha]; csimpl.
  - now rewrite Hfa.
  - destruct (f b); csimpl; [|reflexivity]. now rewrite (IH Ha).
Qed.

Lemma filterThrowing_is_Some {A} (f : A -> option bool) (l : list A) :
  Forall (fun a => is_Some (f a)) l -> is_Some (Filters.filterThrowing f l).
Proof.
  induction 1 as [|a l [keep Ha] _ [rest IH]]; csimpl; [eauto|].
  rewrite Ha, IH. csimpl. eauto.
Qed.

(** X18. The search reads the latitude and longitude of a record whose id
    does not contain the term, so one such record whose latitude is [null]
    or missing makes the whole search throw: nothing is handed to the
    charts, which keep the rows they had. When every record has numbers for
    both coordinates the call returns. *)
Theorem filterProfiles_throws (profiles : list Profile) (searchTerm : string)
    (selectedDepth : option number) :
  (forall p, searchTerm <> "" -> p ∈ profiles ->
     Filters.includes (pretty (id p)) searchTerm = false ->
     isNull (latitude p) = true ->
     Filters.filterProfiles profiles searchTerm selectedDepth = None) /\
  (Forall (fun p => isNull (latitude p) = false /\ isNull (longitude p) = false) profiles ->
   is_Some (Filters.filterProfiles profiles searchTerm selectedDepth)).
Proof.
  split.
  - intros p Hterm Hp Hid Hlat. unfold Filters.filterProfiles.
    destruct (decide (searchTerm = "")); [contradiction|].
    rewrite (filterThrowing_None _ profiles p Hp); [reflexivity|].
    unfold Filters.searchMatches. rewrite Hid.
    destruct (latitude p) as [x| |]; [discriminate | reflexivity | reflexivity].
  - intros Hall. unfold Filters.filterProfiles.
    destruct (decide (searchTerm = "")); csimpl; [eauto|].
    destruct (filterThrowing_is_Some (Filters.searchMatches searchTerm) profiles)
      as [found ->]; csimpl; [|eauto].
    eapply Forall_impl; [exact Hall|]. intros p [Hlat Hlng].
    unfold Filters.searchMatches.
    destruct (Filters.includes (pretty (id p)) searchTerm); [eauto|].
    destruct (latitude p) as [[q|]| |]; try discriminate; csimpl;
      (match goal with |- context [if ?c then _ else _] => destruct c end; [eauto|]);
      destruct (longitude p) as [[q'|]| |]; try discriminate; csimpl; eauto.
Qed.

Lemma filterProfiles_throws_witness :
  let profiles := [ profile (num 10) (num 5) (num 35) 1 2024;
                    {| id := 7; latitude := VNull; longitude := num 20; depth := num 10;
                       temperature := num 5; salinity := num 35; month := 1; year := 2024 |} ] in
  Filters.filterProfiles profiles "3" None = None.
Proof.
  intros profiles.
  destruct (filterProfiles_throws profiles "3" None) as [T _].
  apply (T {| id := 7; latitude := VNull; longitude := num 20; depth := num 10;
              temperature := num 5; salinity := num 35; month := 1; year := 2024 |});
    [discriminate | apply list_elem_of_further, list_elem_of_here
    | vm_compute; reflexivity | reflexivity].
Defined.

Section single_key.
Context {A K : Type} `{EqDecision K} (key : A -> K).

Lemma tally_single_key (l : list A) (k : K) :
  Forall (fun a => key a = k) l -> l <> [] -> tally key l = [(k, length l)].
Proof.
  induction l as [|a l IH] using rev_ind; [congruence|].
  intros Hall _. apply Forall_app in Hall as [Hl Ha].
  inversion Ha as [|? ? Hk _]; subst.
  rewrite tally_snoc, length_app. simpl.
  destruct l as [|b l'].
  - simpl. reflexivity.
  - rewrite IH by (assumption || discriminate). simpl.
    rewrite !decide_True by reflexivity. simpl; repeat f_equal; lia.
Qed.
End single_key.

(** X19. With a depth of a whole number of metres selected (the choices of
    the depth filter are 5, 10, 20, 50, 100, 200 and 500), the depth chart
    of what [filterProfiles] returns has a single bar, at the selected depth
    and as high as the number of records kept; it is empty when no record
    is kept. *)
Theorem depthData_of_selected_depth (profiles filtered : list Profile)
    (searchTerm : string) (metres : Z) :
  Filters.filterProfiles profiles searchTerm (Some (finite (inject_Z metres)))
    = Some filtered ->
  (filtered = [] -> depthData filtered = []) /\
  (filtered <> [] ->
   depthData filtered =
   [ {| depth_of := finite (inject_Z metres); depth_count := length filtered |} ]).
Proof.
  intros Hres. split; [now intros ->|]. intros Hne.
  destruct (filterProfiles_Some profiles filtered searchTerm
              (Some (finite (inject_Z metres))) Hres) as (_ & Hall & _).
  specialize (Hall _ eq_refl).
  assert (Hkey : Forall (fun p => String_value (depth p) = VNum (finite (inject_Z metres)))
                   filtered).
  { eapply Forall_impl; [exact Hall|]. intros p (q & dq & Hq & [= <-] & Heq).
    rewrite Hq. simpl. do 2 f_equal.
    rewrite (Qred_complete _ _ Heq). apply inject_Z_Qred. }
  apply Permutation_singleton_r.
  rewrite depthData_Permutation.
  rewrite (tally_single_key _ filtered _ Hkey Hne). csimpl.
  now rewrite Z.quot_1_r.
Qed.

Lemma depthData_of_selected_depth_witness :
  let profiles := [ profile (num 10) (num 5) (num 35) 1 2024;
                    profile (num 50) (num 5) (num 35) 1 2024;
                    profile (num 50) (num 7) (num 35) 2 2024 ] in
  let filtered := [ profile (num 50) (num 5) (num 35) 1 2024;
                    profile (num 50) (num 7) (num 35) 2 2024 ] in
  Filters.filterProfiles profiles "" (Some (finite (inject_Z 50))) = Some filtered /\
  depthData filtered = [ {| depth_of := finite (inject_Z 50); depth_count := 2 |} ].
Proof.
  intros profiles filtered.
  assert (H : Filters.filterProfiles profiles "" (Some (finite (inject_Z 50)))
              = Some filtered) by (vm_compute; reflexivity).
  split; [exact H|].
  destruct (depthData_of_selected_depth profiles filtered "" 50 H) as [_ T].
  apply T. discriminate.
Defined.

(** ** The form *)

Lemma set_not_nil {K V} `{EqDecision K} (o : object K V) (k : K) (v : V) : set o k v <> [].
Proof. destruct o as [|[k' v'] o]; simpl; [discriminate|]. destruct (decide (k' = k)); discriminate. Qed.

Lemma check_nil (o : object string string) (text : string) (bad : bool) (k m1 m2 : string) :
  (if decide (text = "") then set o k m1 else if bad then set o k m2 else o) = [] <->
  o = [] /\ text <> "" /\ bad = false.
Proof.
  destruct (decide (text = "")) as [->|Hne].
  - split; [intros H; now apply set_not_nil in H | now intros (_ & ? & _)].
  - destruct bad.
    + split; [intros H; now apply set_not_nil in H | now intros (_ & _ & ?)].
    + tauto.
Qed.

Lemma gt_abs_false (hi : Q) (x : number) :
  gt (Math_abs x) (finite hi) = false <-> notOutside (- hi) hi x.
Proof.
  destruct x as [q|]; simpl; [|tauto].
  rewrite negb_false_iff, Qle_bool_iff. apply Qabs_Qle_condition.
Qed.

Lemma lt_false (lo : Q) (x : number) : lt x (finite lo) = false <-> notBelow lo x.
Proof.
  destruct x as [q|]; simpl; [|tauto].
  now rewrite negb_false_iff, Qle_bool_iff.
Qed.

Lemma lt_gt_false (lo hi : Q) (x : number) :
  lt x (finite lo) || gt x (finite hi) = false <-> notOutside lo hi x.
Proof.
  destruct x as [q|]; simpl; [|tauto].
  rewrite orb_false_iff, !negb_false_iff, !Qle_bool_iff. tauto.
Qed.

Lemma validateForm_true (Number : string -> number) (form : InsertData.FormState) :
  InsertData.validateForm Number form = true <->
  filledIn form /\ inRanges (InsertData.payload Number form).
Proof.
  unfold InsertData.validateForm. rewrite Nat.eqb_eq, length_fmap, length_zero_iff_nil.
  unfold InsertData.validationErrors. cbv zeta.
  rewrite !check_nil, !gt_abs_false, !lt_gt_false, lt_false.
  unfold filledIn, inRanges. simpl. tauto.
Qed.

(** X20. [validateForm] accepts a form exactly when no input is empty and
    every converted value passes its range check: latitude in [-90, 90],
    longitude in [-180, 180], depth not negative, temperature in [-5, 50],
    salinity in [0, 50], month in [1, 12] and year in [1900, 2100], the
    ends included. A text that converts to NaN passes every range check;
    whether month and year are whole numbers is not checked. *)
Theorem validateForm_accepts (Number : string -> number) (form : InsertData.FormState) :
  (InsertData.validateForm Number form = true <->
   filledIn form /\ inRanges (InsertData.payload Number form)) /\
  (InsertData.validateForm Number form = true <->
   InsertData.validationErrors Number form = []) /\
  InsertData.validateForm Number InsertData.initialState = false.
Proof.
  split_and!; [apply validateForm_true | | reflexivity].
  unfold InsertData.validateForm. now rewrite Nat.eqb_eq, length_fmap, length_zero_iff_nil.
Qed.

(** X21. [submit] and [updateProfile] send a request only for a form that
    [validateForm] accepts: the body carries the converted inputs, each
    within its range (or NaN), and a float id that is never empty. An update
    goes to the profile that was loaded, whose id is neither 0 nor NaN; with
    no profile loaded nothing is sent. *)
Theorem requests_carry_valid_payload (Number : string -> number)
    (form : InsertData.FormState) (loadedProfileId : option number)
    (r : InsertData.request) :
  (InsertData.submit Number form = InsertData.Sent r ->
   r = InsertData.POST (InsertData.payload Number form) /\
   filledIn form /\ inRanges (InsertData.payload Number form) /\
   InsertData.payload_float_id (InsertData.payload Number form) <> "") /\
  (InsertData.updateProfile Number loadedProfileId form = InsertData.Sent r ->
   exists q, loadedProfileId = Some (finite q) /\ ~ q == 0 /\
     r = InsertData.PUT (finite q) (InsertData.payload Number form) /\
     filledIn form /\ inRanges (InsertData.payload Number form)) /\
  (InsertData.validateForm Number form = false ->
   InsertData.submit Number form =
     InsertData.Invalid (InsertData.validationErrors Number form) /\
   InsertData.validationErrors Number form <> [] /\
   InsertData.updateProfile Number loadedProfileId form <> InsertData.Sent r).
Proof.
  split_and!.
  - unfold InsertData.submit.
    destruct (InsertData.validateForm Number form) eqn:Hv; simpl; [|discriminate].
    intros [= <-]. apply validateForm_true in Hv as [Hf Hr].
    split_and!; try assumption; try reflexivity.
    simpl. destruct (decide (InsertData.float_id form = "")); [discriminate | assumption].
  - unfold InsertData.updateProfile, InsertData.loaded.
    destruct loadedProfileId as [[q|]|]; simpl; try discriminate.
    destruct (Qeq_bool q 0) eqn:Hq; simpl; [discriminate|].
    destruct (InsertData.validateForm Number form) eqn:Hv; simpl; [|discriminate].
    intros [= <-]. apply validateForm_true in Hv as [Hf Hr].
    exists q. split_and!; try assumption; try reflexivity.
    intros Heq. apply Qeq_bool_iff in Heq. congruence.
  - intros Hv. unfold InsertData.submit, InsertData.updateProfile. rewrite Hv. simpl.
    split_and!; [reflexivity | |].
    + intros Hnil. unfold InsertData.validateForm in Hv. rewrite Hnil in Hv. discriminate.
    + destruct (InsertData.loaded loadedProfileId); discriminate.
Qed.

(** X22. [deleteProfile] sends a DELETE only after the user confirmed, and
    only for an id that is a number other than 0 and NaN. The id is that of
    the loaded profile whenever one is loaded, whatever is typed in the id
    box; the typed id is converted and used only when no profile is
    loaded. *)
Theorem deleteProfile_target (Number : string -> number)
    (loadedProfileId : option number) (profileId : string) (confirm : bool)
    (r : InsertData.request) :
  InsertData.deleteProfile Number loadedProfileId profileId confirm = InsertData.Sent r <->
  exists q, r = InsertData.DELETE (finite q) /\ ~ q == 0 /\ confirm = true /\
    (loadedProfileId = Some (finite q) \/
     (loadedProfileId = None /\ profileId <> "" /\ Number profileId = finite q)).
Proof.
  unfold InsertData.deleteProfile, InsertData.loaded. split.
  - destruct loadedProfileId as [[q|]|]; simpl.
    + destruct (Qeq_bool q 0) eqn:Hq; simpl.
      * destruct (bool_decide (profileId = "")); discriminate.
      * destruct confirm; simpl; [|discriminate]. intros [= <-].
        exists q. split_and!; auto. intros Heq. apply Qeq_bool_iff in Heq. congruence.
    + destruct (bool_decide (profileId = "")); discriminate.
    + destruct (bool_decide (profileId = "")) eqn:Hp; [discriminate|].
      apply bool_decide_eq_false in Hp.
      destruct (Number profileId) as [q|] eqn:Hn; simpl; [|discriminate].
      destruct (Qeq_bool q 0) eqn:Hq; simpl; [discriminate|].
      destruct confirm; simpl; [|discriminate]. intros [= <-].
      exists q. split_and!; auto. intros Heq. apply Qeq_bool_iff in Heq. congruence.
  - intros (q & -> & Hq & -> & Hid).
    assert (Hq' : Qeq_bool q 0 = false).
    { destruct (Qeq_bool q 0) eqn:H; [|reflexivity]. now apply Qeq_bool_iff in H. }
    destruct Hid as [->|(-> & Hp & Hn)]; simpl.
    + now rewrite Hq'.
    + rewrite bool_decide_eq_false_2 by assumption. rewrite Hn. simpl. now rewrite Hq'.
Qed.

Lemma substring_nonempty (d : string) (k : nat) : d <> "" -> String.substring 0 (S k) d <> "".
Proof. destruct d; [congruence | discriminate]. Qed.

Lemma text_roundTrips (String_ : Q -> string) (Number : string -> number) (v : option Q) :
  is_Some v -> roundTrips String_ Number v ->
  InsertData.text String_ v <> "" /\ Number (InsertData.text String_ v) = sent v.
Proof. intros [x ->]. simpl. tauto. Qed.

(** X23. Loading a profile and updating it at once writes back what was
    loaded. When the answer to [loadProfile] has an id other than 0 and
    numbers for all seven fields, each within the range [validateForm]
    checks and each converting to text and back to itself, [updateProfile]
    sends a PUT to that id whose body carries exactly those numbers, the
    float id of the answer ("dev-float" when it has none) and the first ten
    characters of its date. When one of the numbers is [null], its input is
    left empty and [updateProfile] sends nothing. *)
Theorem update_after_load (String_ : Q -> string) (Number : string -> number)
    (st : InsertData.state) (p : InsertData.ProfileJson) :
  InsertData.profileId st <> "" ->
  let st' := InsertData.loadProfile String_ st (InsertData.Ok p) in
  (forall i, InsertData.json_id p = Some i -> ~ i == 0 ->
     complete p -> inRanges (bodyOf p) ->
     Forall (roundTrips String_ Number) (numbersOf p) ->
     InsertData.updateProfile Number (InsertData.loadedProfileId st') (InsertData.form st')
     = InsertData.Sent (InsertData.PUT (finite i) (bodyOf p))) /\
  (~ complete p ->
   forall r, InsertData.updateProfile Number (InsertData.loadedProfileId st')
               (InsertData.form st') <> InsertData.Sent r).
Proof.
  intros Hid st'. subst st'. unfold InsertData.loadProfile.
  destruct (decide (InsertData.profileId st = "")); [contradiction|].
  cbn [InsertData.form InsertData.loadedProfileId].
  set (form := {| InsertData.float_id := _ |}).
  split.
  - intros i Hi Hne Hc Hr Hrt. rewrite Hi. cbn [fmap option_fmap option_map].
    unfold complete, numbersOf in *.
    repeat match goal with H : Forall _ (_ :: _) |- _ => inversion H; clear H; subst end.
    repeat match goal with
           | Hs : is_Some ?v, Ht : roundTrips _ _ ?v |- _ =>
               pose proof (text_roundTrips String_ Number v Hs Ht); clear Hs Ht
           end.
    assert (Hbody : InsertData.payload Number form = bodyOf p).
    { unfold InsertData.payload, bodyOf, form. cbn [InsertData.float_id InsertData.latitude
        InsertData.longitude InsertData.depth InsertData.temperature InsertData.salinity
        InsertData.month InsertData.year InsertData.date].
      f_equal; try tauto.
      - destruct (InsertData.json_float_id p) as [s|]; simpl; [|reflexivity].
        destruct (decide (s = "")); [now subst | reflexivity].
      - destruct (InsertData.json_date p) as [d|]; simpl; [|reflexivity].
        destruct (decide (d = "")); simpl; [reflexivity|].
        destruct (decide (String.substring 0 10 d = "")) as [He|]; [|reflexivity].
        now apply substring_nonempty in He. }
    assert (Hv : InsertData.validateForm Number form = true).
    { apply validateForm_true. rewrite Hbody. split; [|exact Hr].
      unfold filledIn, form. cbn [InsertData.latitude InsertData.longitude InsertData.depth
        InsertData.temperature InsertData.salinity InsertData.month InsertData.year].
      tauto. }
    unfold InsertData.updateProfile, InsertData.loaded. cbn [truthy].
    destruct (Qeq_bool i 0) eqn:Hz; [apply Qeq_bool_iff in Hz; contradiction|].
    cbn [negb]. rewrite Hv. cbn [negb]. now rewrite Hbody.
  - intros Hnc r Hsent.
    unfold InsertData.updateProfile in Hsent.
    destruct (InsertData.loaded (finite <$> InsertData.json_id p)); simpl in Hsent;
      [|discriminate].
    destruct (InsertData.validateForm Number form) eqn:Hv; simpl in Hsent; [|discriminate].
    apply validateForm_true in Hv as [Hf _]. apply Hnc.
    unfold filledIn, form in Hf. cbn [InsertData.latitude InsertData.longitude
      InsertData.depth InsertData.temperature InsertData.salinity InsertData.month
      InsertData.year] in Hf.
    unfold complete, numbersOf.
    repeat apply Forall_cons_2; try apply Forall_nil_2;
      match goal with |- is_Some ?v => destruct v; [eauto | simpl in Hf; tauto] end.
Qed.

Lemma update_after_load_witness :
  InsertData.profileId typed42 <> "" /\
  complete profile42 /\ inRanges (bodyOf profile42) /\
  Forall (roundTrips Map.Number_toString Number_of_decimal) (numbersOf profile42) /\
  InsertData.updateProfile Number_of_decimal
    (InsertData.loadedProfileId
       (InsertData.loadProfile Map.Number_toString typed42 (InsertData.Ok profile42)))
    (InsertData.form
       (InsertData.loadProfile Map.Number_toString typed42 (InsertData.Ok profile42)))
  = InsertData.Sent (InsertData.PUT (finite 42) (bodyOf profile42)).
Proof.
  assert (Hid : InsertData.profileId typed42 <> "") by discriminate.
  assert (Hc : complete profile42) by (repeat constructor; eauto).
  assert (Hr : inRanges (bodyOf profile42))
    by (repeat split; vm_compute; discriminate).
  assert (Hrt : Forall (roundTrips Map.Number_toString Number_of_decimal)
                  (numbersOf profile42)).
  { unfold numbersOf. repeat apply Forall_cons_2; try apply Forall_nil_2;
      vm_compute; (split; [discriminate | reflexivity]). }
  destruct (update_after_load Map.Number_toString Number_of_decimal typed42 profile42 Hid)
    as [T _].
  split_and!; try assumption.
  apply (T 42%Q eq_refl); [vm_compute; discriminate | assumption..].
Defined.
